(** * Earthquake feed ingestion and query service: model and properties

    A shallow embedding of the ingestion service (bmkgService.ts, the
    Supabase variant), the storage wrapper (database/supabase.ts) and the
    query routes (routes/earthquakes.ts).

    Modelling conventions.
    - A JavaScript [number] is [NaN], a signed infinity or an exact
      rational.  Binary64 rounding, overflow and the sign of zero are not
      represented: every finite value stands for itself.  A field of
      declared type [number] may also hold null at run time.
    - A JavaScript string is a Rocq [string]; a character is one code unit
      in the range 0..255.
    - The hosted database is a finite map from the primary key [id] to the
      row; what the remote service does on one call (accept, report an
      error, throw) is an explicit [fault] argument of that call.  Rows
      travel as JSON: a number that JSON cannot write (NaN, an infinity)
      is stored as null and comes back as null.
    - Console output is not represented. *)

From Stdlib Require Import ZArith QArith Qround Lqa.
From Stdlib Require Qcanon.
From Stdlib Require Import Ascii String DecimalString.
From Stdlib Require Import Sorting.Sorted Sorting.Permutation.
From stdpp Require Import base option list strings gmap fin_maps.

Local Open Scope Z_scope.

(** ** JavaScript numbers *)

Module JsNumber.

(** What a field of declared type [number] holds at run time.  [Null] is
    JavaScript's null: JSON has neither NaN nor infinities, so a row that
    went through the database carries null where the record sent had one
    of them. *)
Inductive number : Type :=
| NaN
| Inf (negative : bool)
| Fin (q : Q)
| Null.

Definition of_Z (z : Z) : number := Fin (inject_Z z).

(** The conversion the relational and arithmetic operators apply to their
    operands: null counts as 0. *)
Definition ToNumber (x : number) : number :=
  match x with
  | Null => Fin 0
  | _ => x
  end.

Definition is_nan (x : number) : bool :=
  match x with NaN => true | _ => false end.

(** [x < y]: false as soon as one side is NaN. *)
Definition lt (x y : number) : bool :=
  match ToNumber x, ToNumber y with
  | Inf true, Inf false | Inf true, Fin _ | Fin _, Inf false => true
  | Fin p, Fin q => match (p ?= q)%Q with Lt => true | _ => false end
  | _, _ => false
  end.

(** [x <= y]: false as soon as one side is NaN. *)
Definition le (x y : number) : bool :=
  match ToNumber x, ToNumber y with
  | Inf true, Inf _ | Inf true, Fin _ | Inf false, Inf false
  | Fin _, Inf false => true
  | Fin p, Fin q => match (p ?= q)%Q with Gt => false | _ => true end
  | _, _ => false
  end.

Definition gt (x y : number) : bool := lt y x.
Definition ge (x y : number) : bool := le y x.

Definition sgn_neg (q : Q) : bool :=
  match (q ?= 0)%Q with Lt => true | _ => false end.

Definition q_is_zero (q : Q) : bool :=
  match (q ?= 0)%Q with Eq => true | _ => false end.

Definition opp (x : number) : number :=
  match ToNumber x with
  | Inf s => Inf (negb s)
  | Fin q => Fin (Qred (- q))
  | _ => NaN
  end.

Definition add (x y : number) : number :=
  match ToNumber x, ToNumber y with
  | Inf s, Inf t => if Bool.eqb s t then Inf s else NaN
  | Inf s, Fin _ | Fin _, Inf s => Inf s
  | Fin p, Fin q => Fin (Qred (p + q))
  | _, _ => NaN
  end.

Definition sub (x y : number) : number := add x (opp y).

Definition mul (x y : number) : number :=
  match ToNumber x, ToNumber y with
  | Inf s, Inf t => Inf (xorb s t)
  | Inf s, Fin q | Fin q, Inf s =>
      if q_is_zero q then NaN else Inf (xorb s (sgn_neg q))
  | Fin p, Fin q => Fin (Qred (p * q))
  | _, _ => NaN
  end.

(** Division; a zero divisor is taken as [+0]. *)
Definition div (x y : number) : number :=
  match ToNumber x, ToNumber y with
  | Inf s, Fin q => Inf (xorb s (sgn_neg q))
  | Fin _, Inf _ => Fin 0
  | Fin p, Fin q =>
      if q_is_zero q
      then (if q_is_zero p then NaN else Inf (sgn_neg p))
      else Fin (Qred (p / q))
  | _, _ => NaN
  end.

(** [Math.round]: the nearest integer, a tie going up. *)
Definition Math_round (x : number) : number :=
  match ToNumber x with
  | Fin q => Fin (inject_Z (Qfloor (q + (1 # 2))))
  | other => other
  end.

(** Truthiness of a number ([0], [NaN] and null are falsy), for
    [count || 0]. *)
Definition truthy (x : number) : bool :=
  match x with
  | NaN | Null => false
  | Inf _ => true
  | Fin q => negb (q_is_zero q)
  end.

(** [JSON.stringify] followed by [JSON.parse], on a number: NaN and the
    infinities are written as null. *)
Definition JSON_number (x : number) : number :=
  match x with
  | Fin q => Fin q
  | _ => Null
  end.

End JsNumber.

Import JsNumber.

(** ** JavaScript strings and the conversions between strings and numbers *)

Module JsString.

Local Open Scope string_scope.
Local Open Scope Z_scope.

(** Code units matched by [\s] (and trimmed by [parseFloat]/[parseInt]):
    TAB, LF, VT, FF, CR, SPACE and NBSP. *)
Definition is_space (c : ascii) : bool :=
  let n := nat_of_ascii c in
  ((9 <=? n)%nat && (n <=? 13)%nat) || (n =? 32)%nat || (n =? 160)%nat.

Definition is_digit (c : ascii) : bool :=
  let n := nat_of_ascii c in (48 <=? n)%nat && (n <=? 57)%nat.

Definition digit_val (c : ascii) : Z := Z.of_nat (nat_of_ascii c) - 48.

Definition hex_val (c : ascii) : option Z :=
  let n := Z.of_nat (nat_of_ascii c) in
  if (48 <=? n) && (n <=? 57) then Some (n - 48)
  else if (65 <=? n) && (n <=? 70) then Some (n - 55)
  else if (97 <=? n) && (n <=? 102) then Some (n - 87)
  else None.

Fixpoint trim_start (s : string) : string :=
  match s with
  | String c r => if is_space c then trim_start r else s
  | EmptyString => s
  end.

(** The longest run of decimal digits at the front: its value, its length
    and the rest of the string. *)
Fixpoint digits_from (acc : Z) (len : nat) (s : string) : Z * nat * string :=
  match s with
  | String c r =>
      if is_digit c then digits_from (10 * acc + digit_val c) (S len) r
      else (acc, len, s)
  | EmptyString => (acc, len, s)
  end.

Fixpoint hex_from (acc : Z) (len : nat) (s : string) : Z * nat * string :=
  match s with
  | String c r =>
      match hex_val c with
      | Some v => hex_from (16 * acc + v) (S len) r
      | None => (acc, len, s)
      end
  | EmptyString => (acc, len, s)
  end.

(** An optional sign: [(negative, rest)]. *)
Definition read_sign (s : string) : bool * string :=
  match s with
  | String "-" r => (true, r)
  | String "+" r => (false, r)
  | _ => (false, s)
  end.

(** An optional exponent part [e±ddd]; 0 when absent or malformed. *)
Definition read_exponent (s : string) : Z :=
  match s with
  | String c r =>
      if (Ascii.eqb c "e" || Ascii.eqb c "E")%bool then
        let '(neg, r1) := read_sign r in
        let '(v, len, _) := digits_from 0 0 r1 in
        match len with
        | O => 0
        | _ => if neg then - v else v
        end
      else 0
  | EmptyString => 0
  end.

Definition pow10 (e : Z) : Q :=
  if 0 <=? e then inject_Z (10 ^ e) else 1 / inject_Z (10 ^ (- e)).

Definition signed (neg : bool) (q : Q) : Q := if neg then (- q)%Q else q.

(** [parseFloat]: leading white space is skipped, then the longest prefix
    that is a decimal literal is read; [NaN] when there is none. *)
Definition parseFloat (input : string) : number :=
  let '(neg, s) := read_sign (trim_start input) in
  if String.prefix "Infinity" s then Inf neg
  else
    let '(ip, ilen, r) := digits_from 0 0 s in
    let '(fp, flen, r') :=
      match r with
      | String "." r1 => digits_from 0 0 r1
      | _ => (0, O, r)
      end in
    match ilen, flen with
    | O, O => NaN
    | _, _ =>
        let mant := ip * 10 ^ Z.of_nat flen + fp in
        let e := read_exponent r' - Z.of_nat flen in
        Fin (Qred (signed neg (inject_Z mant * pow10 e)))
    end.

(** [parseFloat(undefined)] reads the text "undefined". *)
Definition parseFloat_opt (input : option string) : number :=
  match input with
  | Some s => parseFloat s
  | None => parseFloat "undefined"
  end.

(** [parseInt] without a radix: decimal, or hexadecimal after [0x]. *)
Definition parseInt (input : string) : number :=
  let '(neg, s) := read_sign (trim_start input) in
  let '(v, len, _) :=
    match s with
    | String "0" (String c r) =>
        if (Ascii.eqb c "x" || Ascii.eqb c "X")%bool then hex_from 0 0 r
        else digits_from 0 0 s
    | _ => digits_from 0 0 s
    end in
  match len with
  | O => NaN
  | _ => of_Z (if neg then - v else v)
  end.

(** *** Number to text ([Number::toString], radix 10) *)

Definition digits_of (z : Z) : string :=
  NilZero.string_of_uint (N.to_uint (Z.to_N z)).

Fixpoint zeros (n : nat) : string :=
  match n with
  | O => ""
  | S m => String "0" (zeros m)
  end.

Fixpoint strip_zeros (fuel : nat) (z : Z) : Z :=
  match fuel with
  | O => z
  | S f => if (z mod 10 =? 0) && negb (z =? 0) then strip_zeros f (z / 10) else z
  end.

(** For a positive [q]: the integers [(s, n)] of the language definition,
    [q = 0.s * 10^n] with [s] free of trailing zeros, computed on 17
    significant digits. *)
Definition decimal_parts (q : Q) : Z * Z :=
  let r := Qred q in
  let a := Qnum r in
  let b := Zpos (Qden r) in
  let n0 := Z.of_nat (String.length (digits_of a))
            - Z.of_nat (String.length (digits_of b)) in
  let n := match (r ?= pow10 n0)%Q with Lt => n0 | _ => n0 + 1 end in
  let m := Qfloor (r * pow10 (17 - n) + (1 # 2)) in
  let '(m, n) := if m =? 10 ^ 17 then (10 ^ 16, n + 1) else (m, n) in
  (strip_zeros 17 m, n).

Definition format_positive (q : Q) : string :=
  let '(s, n) := decimal_parts q in
  let d := digits_of s in
  let k := Z.of_nat (String.length d) in
  if (k <=? n) && (n <=? 21) then
    d ++ zeros (Z.to_nat (n - k))
  else if (0 <? n) && (n <=? 21) then
    substring 0 (Z.to_nat n) d ++ "." ++ substring (Z.to_nat n) (Z.to_nat (k - n)) d
  else if (-6 <? n) && (n <=? 0) then
    "0." ++ zeros (Z.to_nat (- n)) ++ d
  else
    let e := n - 1 in
    let exp := (if e <? 0 then "e-" else "e+") ++ digits_of (Z.abs e) in
    if k =? 1 then d ++ exp
    else substring 0 1 d ++ "." ++ substring 1 (Z.to_nat (k - 1)) d ++ exp.

Definition toString (x : number) : string :=
  match x with
  | NaN => "NaN"
  | Inf true => "-Infinity"
  | Inf false => "Infinity"
  | Fin q =>
      match (q ?= 0)%Q with
      | Eq => "0"
      | Lt => "-" ++ format_positive (- q)
      | Gt => format_positive q
      end
  | Null => "null"
  end.

(** *** The string methods the service uses *)

(** [s.split(sep)] for a one-character separator. *)
Fixpoint split_acc (sep : ascii) (cur : string) (s : string) : list string :=
  match s with
  | EmptyString => [String.rev cur]
  | String c r =>
      if Ascii.eqb c sep then String.rev cur :: split_acc sep "" r
      else split_acc sep (String c cur) r
  end.

Definition split (sep : ascii) (s : string) : list string := split_acc sep "" s.

(** [s.replace(pat, rep)] with a string pattern: the first occurrence only. *)
Fixpoint replace_first (pat rep s : string) : string :=
  if String.prefix pat s
  then rep ++ substring (String.length pat) (String.length s - String.length pat) s
  else match s with
       | EmptyString => s
       | String c r => String c (replace_first pat rep r)
       end.

(** [s.replace(/[:\s]/g, "_")]. *)
Fixpoint replace_colon_space (s : string) : string :=
  match s with
  | EmptyString => EmptyString
  | String c r =>
      String (if (Ascii.eqb c ":" || is_space c)%bool then "_"%char else c)
             (replace_colon_space r)
  end.

End JsString.

Import JsString.

(** ** Data model *)

(** One raw entry of a feed (interface [BMKGEarthquake]). *)
Record BMKGEarthquake : Type := {
  Tanggal : string;
  Jam : string;
  DateTime : string;
  Coordinates : string;
  Lintang : string;
  Bujur : string;
  Magnitude : string;
  Kedalaman : string;
  Wilayah : string;
  Potensi : string;
  Dirasakan : option string;
  Shakemap : option string
}.

(** The canonical record (interfaces [SupabaseEarthquake], [Earthquake]). *)
Record SupabaseEarthquake : Type := {
  id : string;
  datetime : string;
  timestamp : number;
  magnitude : number;
  depth : number;
  latitude : number;
  longitude : number;
  region : string;
  tsunami_potential : option string;
  felt_status : option string;
  shakemap_url : option string;
  created_at : number
}.

Definition BMKG_BASE_URL : string := "https://data.bmkg.go.id".

(** [s || null] for a string: the empty string is falsy. *)
Definition or_null (s : string) : option string :=
  if String.eqb s "" then None else Some s.

Definition or_null_opt (s : option string) : option string :=
  match s with
  | Some t => or_null t
  | None => None
  end.

(** ** The hosted table and the remote call *)

Inductive SupabaseClient : Type := Client.

(** What the remote service does on one [upsert] call.  The call is one
    statement of the database: it writes every row of the payload or none.
    Either the rows are written and no error is reported, or the answer
    carries an error, or the call throws; in the last two cases
    [committed] tells whether nothing was written (the statement was
    refused, the service was not reached) or the rows were written and the
    answer was lost on its way back. *)
Inductive fault : Type :=
| NoFault
| ErrorAfter (committed : bool) (message : string)
| ThrowAfter (committed : bool) (message : string).

Record world : Type := {
  rows : gmap string SupabaseEarthquake;   (* table "earthquakes", key id *)
  calls : list (list SupabaseEarthquake);  (* payloads handed to upsert, in order *)
  clock : number                           (* what Date.now() returns *)
}.

(** The record as the request body carries it and as the table keeps it:
    the client serializes the payload with [JSON.stringify], which writes
    a NaN or an infinite number as null. *)
Definition JSON_record (r : SupabaseEarthquake) : SupabaseEarthquake :=
  {| id := id r;
     datetime := datetime r;
     timestamp := JSON_number (timestamp r);
     magnitude := JSON_number (magnitude r);
     depth := JSON_number (depth r);
     latitude := JSON_number (latitude r);
     longitude := JSON_number (longitude r);
     region := region r;
     tsunami_potential := tsunami_potential r;
     felt_status := felt_status r;
     shakemap_url := shakemap_url r;
     created_at := JSON_number (created_at r) |}.

(** Insert-or-replace on the key [id], row after row. *)
Definition upsert_rows (t : gmap string SupabaseEarthquake)
    (l : list SupabaseEarthquake) : gmap string SupabaseEarthquake :=
  foldl (fun acc r => <[id r := JSON_record r]> acc) t l.

(** The rows one remote call writes under a given behaviour of the service. *)
Definition written (f : fault) (payload : list SupabaseEarthquake)
  : list SupabaseEarthquake :=
  match f with
  | NoFault => payload
  | ErrorAfter committed _ | ThrowAfter committed _ =>
      if committed then payload else []
  end.

(** ** Computations that may throw *)

Inductive completion (A : Type) : Type :=
| Normal (a : A)
| Throw (e : string).
Arguments Normal {A} a.
Arguments Throw {A} e.

Definition js (A : Type) : Type := world -> world * completion A.

Definition ret {A} (a : A) : js A := fun w => (w, Normal a).

Definition throw {A} (e : string) : js A := fun w => (w, Throw e).

Definition bind {A B} (m : js A) (k : A -> js B) : js B :=
  fun w =>
    match m w with
    | (w', Normal a) => k a w'
    | (w', Throw e) => (w', Throw e)
    end.

Definition try_catch {A} (body : js A) (handler : string -> js A) : js A :=
  fun w =>
    match body w with
    | (w', Normal a) => (w', Normal a)
    | (w', Throw e) => handler e w'
    end.

Notation "'let*' x ':=' m 'in' k" := (bind m (fun x => k))
  (at level 10, x name, m at level 100, k at level 200).
Notation "'do' m 'then' k" := (bind m (fun _ => k))
  (at level 10, m at level 100, k at level 200).

(** [Date.now()]. *)
Definition Date_now : js number := fun w => (w, Normal (clock w)).

(** [await supabase.from("earthquakes").upsert(payload, {onConflict: "id"})]:
    the call is recorded, the table takes the rows the service wrote, and
    the call yields its [error] field or throws. *)
Definition from_earthquakes_upsert (f : fault) (payload : list SupabaseEarthquake)
  : js (option string) :=
  fun w =>
    let after := {| rows := upsert_rows (rows w) (written f payload);
                    calls := calls w ++ [payload];
                    clock := clock w |} in
    match f with
    | NoFault => (after, Normal None)
    | ErrorAfter _ message => (after, Normal (Some message))
    | ThrowAfter _ message => (after, Throw message)
    end.

(** ** database/supabase.ts *)

Section Storage.

(** The module-level client handle: [None] when the credentials are absent. *)
Variable supabase : option SupabaseClient.

Definition isSupabaseAvailable : bool :=
  match supabase with Some _ => true | None => false end.

Definition upsertEarthquake (f : fault) (earthquake : SupabaseEarthquake) : js bool :=
  match supabase with
  | None => ret false
  | Some _ =>
      try_catch
        (let* error := from_earthquakes_upsert f [earthquake] in
         match error with
         | Some _ => ret false
         | None => ret true
         end)
        (fun _ => ret false)
  end.

Definition upsertEarthquakes (f : fault) (earthquakes : list SupabaseEarthquake)
  : js number :=
  match supabase, earthquakes with
  | None, _ | _, [] => ret (of_Z 0)
  | Some _, _ :: _ =>
      try_catch
        (let* error := from_earthquakes_upsert f earthquakes in
         match error with
         | Some _ => ret (of_Z 0)
         | None => ret (of_Z (Z.of_nat (length earthquakes)))
         end)
        (fun _ => ret (of_Z 0))
  end.

End Storage.

(** ** services/bmkgService.ts *)

Section Ingestion.

Variable supabase : option SupabaseClient.

(** [new Date(text).getTime()], a service of the runtime. *)
Variable Date_getTime : string -> number.

(** The record literal [earthquakeData] built by [parseAndInsertEarthquake]. *)
Definition earthquakeData (data : BMKGEarthquake) (now : number) : SupabaseEarthquake :=
  let coords := split "," (Coordinates data) in
  let latitude := parseFloat_opt (coords !! 0%nat) in
  let longitude := parseFloat_opt (coords !! 1%nat) in
  let magnitude := parseFloat (Magnitude data) in
  let depth := parseFloat (replace_first " km" "" (Kedalaman data)) in
  let id := replace_colon_space
              (DateTime data +:+ "_" +:+ toString latitude +:+ "_" +:+ toString longitude) in
  let datetime := Tanggal data +:+ " " +:+ Jam data in
  let timestamp := Date_getTime (DateTime data) in
  {| id := id;
     datetime := datetime;
     timestamp := timestamp;
     magnitude := magnitude;
     depth := depth;
     latitude := latitude;
     longitude := longitude;
     region := Wilayah data;
     tsunami_potential := or_null (Potensi data);
     felt_status := or_null_opt (Dirasakan data);
     shakemap_url :=
       match or_null_opt (Shakemap data) with
       | Some path => Some (BMKG_BASE_URL +:+ "/" +:+ path)
       | None => None
       end;
     created_at := now |}.

Definition parseAndInsertEarthquake (f : fault) (data : BMKGEarthquake) : js unit :=
  try_catch
    (let* created_at := Date_now in
     let* success := upsertEarthquake supabase f (earthquakeData data created_at) in
     ret tt)
    (fun _ => ret tt).

(** What [axios.get] resolves to, as far as the service looks into it:
    [response.data.Infogempa.gempa]. *)
Inductive gempa_field : Type :=
| GempaAbsent                                 (* undefined, null, falsy *)
| GempaOne (e : BMKGEarthquake)               (* one object *)
| GempaMany (l : list BMKGEarthquake).        (* an array *)

Inductive response_data : Type :=
| NoInfogempa                                 (* body is not the expected object *)
| Infogempa (gempa : gempa_field).

Inductive axios_reply : Type :=
| AxiosError (message : string)               (* network, timeout, status, syntax *)
| AxiosResponse (data : response_data).

Definition axios_get (r : axios_reply) : js response_data :=
  match r with
  | AxiosError message => throw message
  | AxiosResponse data => ret data
  end.

(** [response.data.Infogempa.gempa]: a TypeError when [Infogempa] is missing. *)
Definition get_gempa (d : response_data) : js gempa_field :=
  match d with
  | NoInfogempa => throw "TypeError: Cannot read properties of undefined (reading 'gempa')"
  | Infogempa g => ret g
  end.

(** [for (const gempa of gempaList) await parseAndInsertEarthquake(gempa)];
    the i-th remote call of the loop meets [service i]. *)
Fixpoint for_of (service : nat -> fault) (i : nat) (gempaList : list BMKGEarthquake)
  : js unit :=
  match gempaList with
  | [] => ret tt
  | gempa :: rest =>
      do parseAndInsertEarthquake (service i) gempa
      then for_of service (S i) rest
  end.

Definition fetchLatestEarthquake (reply : axios_reply) (service : nat -> fault) : js unit :=
  try_catch
    (let* response := axios_get reply in
     let* gempa := get_gempa response in
     match gempa with
     | GempaOne e => parseAndInsertEarthquake (service 0%nat) e
     | _ => ret tt
     end)
    (fun _ => ret tt).

Definition fetchM5Earthquakes (reply : axios_reply) (service : nat -> fault) : js unit :=
  try_catch
    (let* response := axios_get reply in
     let* gempaList := get_gempa response in
     match gempaList with
     | GempaMany l => for_of service 0 l
     | _ => ret tt
     end)
    (fun _ => ret tt).

Definition fetchFeltEarthquakes (reply : axios_reply) (service : nat -> fault) : js unit :=
  try_catch
    (let* response := axios_get reply in
     let* gempaList := get_gempa response in
     match gempaList with
     | GempaMany l => for_of service 0 l
     | _ => ret tt
     end)
    (fun _ => ret tt).

(** *** fetchAllEarthquakes: the three feeds under [Promise.all]

    The three async functions run interleaved; each gives up control at
    its [await]s.  A feed is between two awaits in one of three places:
    waiting for [axios.get], waiting for the insertion of the next entry,
    or settled. *)

Inductive feed : Type := Latest | M5 | Felt.

(** The entries a feed goes on to insert, given its [gempa] field: the
    single-event feed wants one object, the list feeds want an array. *)
Definition entries_of (k : feed) (gempa : gempa_field) : list BMKGEarthquake :=
  match k, gempa with
  | Latest, GempaOne e => [e]
  | M5, GempaMany l | Felt, GempaMany l => l
  | _, _ => []
  end.

(** The head of the [try] block, up to the insertions. *)
Definition open_feed (k : feed) (reply : axios_reply) : js (list BMKGEarthquake) :=
  let* response := axios_get reply in
  let* gempa := get_gempa response in
  ret (entries_of k gempa).

Inductive branch : Type :=
| Fetching (k : feed) (reply : axios_reply)
| Inserting (todo : list BMKGEarthquake)
| Settled (result : completion unit).

(** One resumption of a feed's function, up to its next await.  An
    exception inside the [try] block lands in the [catch], which logs and
    returns. *)
Definition branch_step (f : fault) (b : branch) (w : world) : option (branch * world) :=
  match b with
  | Fetching k reply =>
      Some (match open_feed k reply w with
            | (w', Normal todo) => (Inserting todo, w')
            | (w', Throw _) => (Settled (Normal tt), w')
            end)
  | Inserting [] => Some (Settled (Normal tt), w)
  | Inserting (gempa :: rest) =>
      Some (match parseAndInsertEarthquake f gempa w with
            | (w', Normal _) => (Inserting rest, w')
            | (w', Throw _) => (Settled (Normal tt), w')
            end)
  | Settled _ => None
  end.

Inductive promise : Type :=
| Pending
| Fulfilled
| Rejected (reason : string).

Definition promise_of (b : branch) : promise :=
  match b with
  | Settled (Normal _) => Fulfilled
  | Settled (Throw e) => Rejected e
  | _ => Pending
  end.

(** [Promise.all]: rejected as soon as one input is, fulfilled once all are. *)
Fixpoint Promise_all (ps : list promise) : promise :=
  match ps with
  | [] => Fulfilled
  | p :: rest =>
      match p, Promise_all rest with
      | Rejected e, _ => Rejected e
      | _, Rejected e => Rejected e
      | Pending, _ => Pending
      | Fulfilled, r => r
      end
  end.

(** A cycle under way: the three feeds and the world they share. *)
Record cycle : Type := {
  latest_feed : branch;
  m5_feed : branch;
  felt_feed : branch;
  store : world
}.

(** The call [fetchAllEarthquakes()]: the three functions are started. *)
Definition fetchAllEarthquakes (latest m5 felt : axios_reply) (w : world) : cycle :=
  {| latest_feed := Fetching Latest latest;
     m5_feed := Fetching M5 m5;
     felt_feed := Fetching Felt felt;
     store := w |}.

(** The promise [fetchAllEarthquakes] returns: it awaits [Promise.all] of
    the three and then only logs. *)
Definition cycle_promise (s : cycle) : promise :=
  Promise_all [promise_of (latest_feed s); promise_of (m5_feed s);
               promise_of (felt_feed s)].

(** The scheduler resumes any feed that is not settled; the remote service
    answers the insertion it gets as it likes. *)
Inductive cycle_step : cycle -> cycle -> Prop :=
| step_latest f s b w' :
    branch_step f (latest_feed s) (store s) = Some (b, w') ->
    cycle_step s {| latest_feed := b; m5_feed := m5_feed s;
                    felt_feed := felt_feed s; store := w' |}
| step_m5 f s b w' :
    branch_step f (m5_feed s) (store s) = Some (b, w') ->
    cycle_step s {| latest_feed := latest_feed s; m5_feed := b;
                    felt_feed := felt_feed s; store := w' |}
| step_felt f s b w' :
    branch_step f (felt_feed s) (store s) = Some (b, w') ->
    cycle_step s {| latest_feed := latest_feed s; m5_feed := m5_feed s;
                    felt_feed := b; store := w' |}.

End Ingestion.

(** ** routes/earthquakes.ts *)

(** What a handler sends: a 200 body, or a status with an error message. *)
Inductive response (A : Type) : Type :=
| Json (body : A)
| Failure (status : Z) (error : string).
Arguments Json {A} body.
Arguments Failure {A} status error.

Definition not_configured : string :=
  "Database not configured. Please set SUPABASE_URL and SUPABASE_ANON_KEY in .env".

(** A query parameter is falsy when it is missing or empty. *)
Definition given (p : option string) : bool :=
  match or_null_opt p with Some _ => true | None => false end.

(** Destructuring default: used only when the parameter is missing. *)
Definition param_or (d : string) (p : option string) : string :=
  match p with Some s => s | None => d end.

(** [select("*")]: every row of the table. *)
Definition select_all (w : world) : list SupabaseEarthquake :=
  (map_to_list (rows w)).*2.

Section Sorting.
Context {A : Type}.

(** Insertion of [x] before the first element that must not precede it. *)
Fixpoint insert_by (after : A -> A -> bool) (x : A) (l : list A) : list A :=
  match l with
  | [] => [x]
  | y :: r => if after x y then y :: insert_by after x r else x :: y :: r
  end.

(** A stable sort: [after x y] says that [x] must come after [y]. *)
Fixpoint sort_by (after : A -> A -> bool) (l : list A) : list A :=
  match l with
  | [] => []
  | x :: r => insert_by after x (sort_by after r)
  end.

(** [array.sort(compare)]: [a] goes after [b] when [compare(a, b) > 0]
    (a NaN result counts as 0). *)
Definition Array_sort (compare : A -> A -> number) (l : list A) : list A :=
  sort_by (fun a b => gt (compare a b) (of_Z 0)) l.
End Sorting.

(** *** Numbers in the database

    The numeric columns are floating-point columns ([REAL] in the schema
    of the SQLite variant).  In the order of such a column NaN is equal to
    itself and above every number; NULL compares with nothing, and a
    descending sort puts it first. *)

(** [a <= b] in the order of a floating-point column, for values that are
    not NULL. *)
Definition float_le (a b : number) : bool :=
  match a, b with
  | _, NaN => true
  | NaN, _ => false
  | _, _ => le a b
  end.

(** The filters [.gte(column, bound)] and [.lte(column, bound)].  The
    bound is a number the route computed (never null); it travels as text
    in the request ("5", "NaN", "Infinity") and is compared by the
    database.  A row whose column is NULL does not pass. *)
Definition gte (column bound : number) : bool :=
  match column with
  | Null => false
  | _ => float_le bound column
  end.

Definition lte (column bound : number) : bool :=
  match column with
  | Null => false
  | _ => float_le column bound
  end.

(** The order of a sort key: that of the column, with NULL above every
    value, as in [ORDER BY ... DESC NULLS FIRST]. *)
Definition key_le (a b : number) : bool :=
  match a, b with
  | _, Null => true
  | Null, _ => false
  | _, _ => float_le a b
  end.

(** [.order(key, {ascending: false})].  Among rows of equal key the
    database is free to answer in any order; the order taken here is that
    of the scan, kept by a stable sort. *)
Definition order_desc (key : SupabaseEarthquake -> number)
    (l : list SupabaseEarthquake) : list SupabaseEarthquake :=
  sort_by (fun x y => negb (key_le (key y) (key x))) l.

Definition is_integer (q : Q) : bool := (Zpos (Qden (Qred q)) =? 1).

(** [.range(from, to)]: the rows at positions [from..to], both included.
    Bounds that are not natural numbers make the service report an error. *)
Definition range {A} (from to : number) (l : list A) : option (list A) :=
  match from, to with
  | Fin f, Fin t =>
      if is_integer f && is_integer t && (0 <=? Qfloor f)
      then Some (take (Z.to_nat (Qfloor t - Qfloor f + 1)) (drop (Z.to_nat (Qfloor f)) l))
      else None
  | _, _ => None
  end.

Record pagination_info : Type := {
  total : number;
  limit : number;
  offset : number
}.

Record list_body : Type := {
  list_data : list SupabaseEarthquake;
  pagination : pagination_info
}.

Record nearby_row : Type := {
  quake : SupabaseEarthquake;   (* ...eq *)
  distance : number
}.

Record nearby_body : Type := {
  nearby_data : list nearby_row;
  userLocation : number * number;
  radius : number
}.

Record bucket : Type := {
  bucket_range : string;
  count : nat
}.

Record stats_body : Type := {
  stats_total : number;
  todayCount : number;
  strongest : option SupabaseEarthquake;
  byMagnitude : list bucket
}.

(** [count || 0]. *)
Definition or_zero (x : number) : number := if truthy x then x else of_Z 0.

Definition count_of {A} (l : list A) : number := of_Z (Z.of_nat (length l)).

(** The four counters of the statistics route and the loop body that
    increments one of them. *)
Definition empty_histogram : list bucket :=
  [ {| bucket_range := "<5"; count := 0 |};
    {| bucket_range := "5-6"; count := 0 |};
    {| bucket_range := "6-7"; count := 0 |};
    {| bucket_range := "7+"; count := 0 |} ].

Definition increment (i : nat) (h : list bucket) : list bucket :=
  alter (fun b => {| bucket_range := bucket_range b; count := S (count b) |}) i h.

Definition bucket_index (m : number) : nat :=
  if lt m (of_Z 5) then 0%nat
  else if ge m (of_Z 5) && lt m (of_Z 6) then 1%nat
  else if ge m (of_Z 6) && lt m (of_Z 7) then 2%nat
  else 3%nat.

Definition histogram (magnitudes : list number) : list bucket :=
  foldl (fun h m => increment (bucket_index m) h) empty_histogram magnitudes.

Section Routes.

Variable supabase : option SupabaseClient.

(** [calculateDistance] of utils/distance, taken as given. *)
Variable calculateDistance : number -> number -> number -> number -> number.

(** GET /api/earthquakes.  [db_error] is the [error] of the query. *)
Definition get_list (db_error : option string)
    (limit offset minMagnitude maxMagnitude : option string) (w : world)
  : response list_body :=
  if negb (isSupabaseAvailable supabase) then Failure 503 not_configured
  else
    let limit := param_or "50" limit in
    let offset := param_or "0" offset in
    let query := select_all w in
    let query :=
      if given minMagnitude
      then filter (fun r => gte (magnitude r) (parseFloat_opt minMagnitude)) query
      else query in
    let query :=
      if given maxMagnitude
      then filter (fun r => lte (magnitude r) (parseFloat_opt maxMagnitude)) query
      else query in
    let page :=
      range (parseInt offset)
            (sub (add (parseInt offset) (parseInt limit)) (of_Z 1))
            (order_desc timestamp query) in
    match db_error, page with
    | Some message, _ => Failure 500 message
    | None, None => Failure 500 "Requested range not satisfiable"
    | None, Some earthquakes =>
        Json {| list_data := earthquakes;
                pagination := {| total := or_zero (count_of query);
                                 limit := parseInt limit;
                                 offset := parseInt offset |} |}
    end.

(** The arrow function mapped over the rows by the nearby route: the row
    with its distance from the user, rounded to one decimal. *)
Definition with_distance (userLat userLng : number) (eq : SupabaseEarthquake)
  : nearby_row :=
  let distance := calculateDistance userLat userLng (latitude eq) (longitude eq) in
  {| quake := eq;
     distance := div (Math_round (mul distance (of_Z 10))) (of_Z 10) |}.

(** GET /api/earthquakes/nearby. *)
Definition get_nearby (db_error : option string)
    (lat lng radius : option string) (w : world) : response nearby_body :=
  if negb (isSupabaseAvailable supabase) then Failure 503 not_configured
  else if negb (given lat) || negb (given lng)
  then Failure 400 "Latitude and longitude are required"
  else
    let userLat := parseFloat_opt lat in
    let userLng := parseFloat_opt lng in
    let radiusKm := parseFloat (param_or "100" radius) in
    match db_error with
    | Some message => Failure 500 message
    | None =>
        let allEarthquakes := order_desc timestamp (select_all w) in
        let nearbyEarthquakes :=
          Array_sort (fun a b => sub (distance a) (distance b))
            (filter (fun eq => le (distance eq) radiusKm)
               (with_distance userLat userLng <$> allEarthquakes)) in
        Json {| nearby_data := nearbyEarthquakes;
                userLocation := (userLat, userLng);
                radius := radiusKm |}
    end.

(** GET /api/earthquakes/stats.  [db_error i] is the [error] of the i-th
    query; [todayTimestamp] is local midnight as read from the clock. *)
Definition get_stats (db_error : nat -> option string) (todayTimestamp : number)
    (w : world) : response stats_body :=
  if negb (isSupabaseAvailable supabase) then Failure 503 not_configured
  else
    match db_error 0%nat, db_error 1%nat, db_error 2%nat, db_error 3%nat with
    | Some message, _, _, _
    | None, Some message, _, _
    | None, None, Some message, _
    | None, None, None, Some message => Failure 500 message
    | None, None, None, None =>
        let total := count_of (select_all w) in
        let strongest := head (order_desc magnitude (select_all w)) in
        let todayCount :=
          count_of (filter (fun r => gte (timestamp r) todayTimestamp) (select_all w)) in
        let allEarthquakes := magnitude <$> select_all w in
        Json {| stats_total := or_zero total;
                todayCount := or_zero todayCount;
                strongest := strongest;
                byMagnitude := histogram allEarthquakes |}
    end.

End Routes.

(** ** The read side of database/supabase.ts and the two lookup routes *)

(** What the remote service does on one read: it answers with the rows,
    answers with neither rows nor error, reports an error, or makes the
    call throw. *)
Inductive read_fault : Type :=
| ReadOk
| ReadNull
| ReadError (message : string)
| ReadThrow (message : string).

(** [.limit(count)]: the first [count] rows.  A count that is not a natural
    number makes the service report an error. *)
Definition limit_rows {A} (count : number) (l : list A) : option (list A) :=
  match count with
  | Fin q =>
      if is_integer q && (0 <=? Qfloor q)
      then Some (take (Z.to_nat (Qfloor q)) l)
      else None
  | _ => None
  end.

(** [await supabase.from("earthquakes").select("*")
       .order("timestamp", {ascending: false}).limit(count)]:
    the fields [data] and [error] of the answer. *)
Definition select_recent (f : read_fault) (count : number)
  : js (option (list SupabaseEarthquake) * option string) :=
  fun w =>
    match f with
    | ReadOk =>
        match limit_rows count (order_desc timestamp (select_all w)) with
        | Some l => (w, Normal (Some l, None))
        | None => (w, Normal (None, Some "Requested range not satisfiable"))
        end
    | ReadNull => (w, Normal (None, None))
    | ReadError message => (w, Normal (None, Some message))
    | ReadThrow message => (w, Throw message)
    end.

Section Reading.

Variable supabase : option SupabaseClient.

(** [fetchEarthquakesFromSupabase(limit = 100)]. *)
Definition fetchEarthquakesFromSupabase (f : read_fault) (limit : option number)
  : js (list SupabaseEarthquake) :=
  let limit := default (of_Z 100) limit in
  match supabase with
  | None => ret []
  | Some _ =>
      try_catch
        (let* answer := select_recent f limit in
         match answer with
         | (_, Some _) => ret []
         | (Some data, None) => ret data
         | (None, None) => ret []
         end)
        (fun _ => ret [])
  end.

(** GET /api/earthquakes/latest. *)
Definition get_latest (db_error : option string) (w : world)
  : response SupabaseEarthquake :=
  if negb (isSupabaseAvailable supabase) then Failure 503 not_configured
  else
    match db_error with
    | Some message => Failure 500 message
    | None =>
        match take 1 (order_desc timestamp (select_all w)) with
        | [] => Failure 404 "No earthquakes found"
        | first :: _ => Json first
        end
    end.

(** GET /api/earthquakes/:id. *)
Definition get_by_id (db_error : option string) (id_param : string) (w : world)
  : response SupabaseEarthquake :=
  if negb (isSupabaseAvailable supabase) then Failure 503 not_configured
  else
    match db_error with
    | Some message => Failure 500 message
    | None =>
        match take 1 (filter (fun r => id r = id_param) (select_all w)) with
        | [] => Failure 404 "Earthquake not found"
        | first :: _ => Json first
        end
    end.

End Reading.

(** * Vocabulary of the statements *)

Definition accepted (f : fault) : bool :=
  match f with NoFault => true | _ => false end.

(** The rows were written but the caller did not learn it. *)
Definition answer_lost (f : fault) : bool :=
  match f with
  | ErrorAfter true _ | ThrowAfter true _ => true
  | _ => false
  end.

Definition after_call (f : fault) (payload : list SupabaseEarthquake) (w : world) : world :=
  {| rows := upsert_rows (rows w) (written f payload);
     calls := calls w ++ [payload];
     clock := clock w |}.

Definition tally (i : nat) (magnitudes : list number) : nat :=
  length (filter (fun m => bucket_index m = i) magnitudes).

(** Rounding to one decimal, as the route does it. *)
Definition rounded (d : number) : number :=
  div (Math_round (mul d (of_Z 10))) (of_Z 10).

(** The list the nearby route sends back. *)
Definition nearby_result
    (calculateDistance : number -> number -> number -> number -> number)
    (lat lng rad : option string) (w : world) : list nearby_row :=
  Array_sort (fun a b => sub (distance a) (distance b))
    (filter (fun eq => le (distance eq) (parseFloat (param_or "100" rad)))
       (with_distance calculateDistance (parseFloat_opt lat) (parseFloat_opt lng)
          <$> order_desc timestamp (select_all w))).

(** Two records with different timestamps, neither of them null. *)
Definition apart (a b : SupabaseEarthquake) : Prop :=
  timestamp a <> Null /\ timestamp b <> Null /\
  (lt (timestamp a) (timestamp b) = true \/ lt (timestamp b) (timestamp a) = true).

(** The timestamps of a list of records are pairwise different. *)
Fixpoint distinct_timestamps (l : list SupabaseEarthquake) : Prop :=
  match l with
  | [] => True
  | x :: r => Forall (apart x) r /\ distinct_timestamps r
  end.

(** The entries a feed will insert, as decided by what [axios.get] gives:
    none when the request fails or the body has no [Infogempa]. *)
Definition feed_entries (k : feed) (reply : axios_reply) : list BMKGEarthquake :=
  match reply with
  | AxiosResponse (Infogempa g) => entries_of k g
  | _ => []
  end.

Definition fetch_failed (reply : axios_reply) : Prop :=
  match reply with
  | AxiosResponse (Infogempa _) => False
  | _ => True
  end.

Definition todo_of (b : branch) : list BMKGEarthquake :=
  match b with
  | Fetching k reply => feed_entries k reply
  | Inserting todo => todo
  | Settled _ => []
  end.

(** Resumptions a feed still needs before it is settled. *)
Definition work (b : branch) : nat :=
  match b with
  | Fetching k reply => length (feed_entries k reply) + 2
  | Inserting todo => length todo + 1
  | Settled _ => 0
  end.

Definition remaining (s : cycle) : nat :=
  work (latest_feed s) + work (m5_feed s) + work (felt_feed s).

Definition outstanding (s : cycle) : nat :=
  length (todo_of (latest_feed s)) + length (todo_of (m5_feed s))
  + length (todo_of (felt_feed s)).

Definition resolved (b : branch) : Prop := b = Settled (Normal tt).

(** One resumption of a feed taken alone, under some answer of the service. *)
Definition branch_next (supabase : option SupabaseClient) (getTime : string -> number)
    (x y : branch * world) : Prop :=
  exists f, branch_step supabase getTime f (fst x) (snd x) = Some y.

(** Requests sent for [n] entries: one each, none without a client. *)
Definition requests (supabase : option SupabaseClient) (n : nat) : nat :=
  if isSupabaseAvailable supabase then n else 0%nat.

(** Every state of a cycle: no feed has rejected, and the requests sent so
    far plus those still to come make up one per entry of the feeds. *)
Definition cycle_ok (supabase : option SupabaseClient)
    (latest m5 felt : axios_reply) (w : world) (s : cycle) : Prop :=
  (forall e, latest_feed s <> Settled (Throw e)) /\
  (forall e, m5_feed s <> Settled (Throw e)) /\
  (forall e, felt_feed s <> Settled (Throw e)) /\
  (length (calls (store s)) + requests supabase (outstanding s)
   = length (calls w)
     + requests supabase
         (length (feed_entries Latest latest) + length (feed_entries M5 m5)
          + length (feed_entries Felt felt)))%nat.

(** A schedule, to run a cycle to its end: resume the first feed that is
    not settled, the service accepting every insertion. *)
Definition resume_first (supabase : option SupabaseClient) (getTime : string -> number)
    (s : cycle) : option cycle :=
  match branch_step supabase getTime NoFault (latest_feed s) (store s) with
  | Some (b, w') =>
      Some {| latest_feed := b; m5_feed := m5_feed s; felt_feed := felt_feed s;
              store := w' |}
  | None =>
      match branch_step supabase getTime NoFault (m5_feed s) (store s) with
      | Some (b, w') =>
          Some {| latest_feed := latest_feed s; m5_feed := b; felt_feed := felt_feed s;
                  store := w' |}
      | None =>
          match branch_step supabase getTime NoFault (felt_feed s) (store s) with
          | Some (b, w') =>
              Some {| latest_feed := latest_feed s; m5_feed := m5_feed s;
                      felt_feed := b; store := w' |}
          | None => None
          end
      end
  end.

Fixpoint run_cycle (supabase : option SupabaseClient) (getTime : string -> number)
    (fuel : nat) (s : cycle) : cycle :=
  match fuel with
  | O => s
  | S n =>
      match resume_first supabase getTime s with
      | Some s' => run_cycle supabase getTime n s'
      | None => s
      end
  end.

(** * Vocabulary of the further statements *)

(** Every row of the table is stored under its own id. *)
Definition table_ok (t : gmap string SupabaseEarthquake) : Prop :=
  forall k r, t !! k = Some r -> id r = k.

(** The record an entry is normalized to in a given world. *)
Definition normalized (getTime : string -> number) (w : world) (e : BMKGEarthquake)
  : SupabaseEarthquake :=
  earthquakeData getTime e (clock w).

(** The rows that pass the magnitude filters of the list route. *)
Definition matching (minMagnitude maxMagnitude : option string) (w : world)
  : list SupabaseEarthquake :=
  let query := select_all w in
  let query :=
    if given minMagnitude
    then filter (fun r => gte (magnitude r) (parseFloat_opt minMagnitude)) query
    else query in
  if given maxMagnitude
  then filter (fun r => lte (magnitude r) (parseFloat_opt maxMagnitude)) query
  else query.

(** All the entries the three feeds of a cycle bring. *)
Definition cycle_entries (latest m5 felt : axios_reply) : list BMKGEarthquake :=
  feed_entries Latest latest ++ feed_entries M5 m5 ++ feed_entries Felt felt.

(** How far a cycle has moved the world it started from. *)
Definition cycle_inv (supabase : option SupabaseClient) (getTime : string -> number)
    (latest m5 felt : axios_reply) (w : world) (s : cycle) : Prop :=
  todo_of (latest_feed s) ⊆ cycle_entries latest m5 felt /\
  todo_of (m5_feed s) ⊆ cycle_entries latest m5 felt /\
  todo_of (felt_feed s) ⊆ cycle_entries latest m5 felt /\
  clock (store s) = clock w /\
  (forall k, is_Some (rows w !! k) -> is_Some (rows (store s) !! k)) /\
  (table_ok (rows w) -> table_ok (rows (store s))) /\
  (forall k,
      (forall e, e ∈ cycle_entries latest m5 felt -> id (normalized getTime w e) <> k) ->
      rows (store s) !! k = rows w !! k) /\
  (isSupabaseAvailable supabase = false -> store s = w).

(** A table as upserts leave it: every row is as JSON carries it. *)
Definition as_stored (t : gmap string SupabaseEarthquake) : Prop :=
  forall k r, t !! k = Some r -> JSON_record r = r.

(** Descending order of timestamp, as the database understands it. *)
Definition recent_first (l : list SupabaseEarthquake) : Prop :=
  Sorted (fun a b => key_le (timestamp b) (timestamp a) = true) l.

(** The same world at a later time. *)
Definition at_time (now : number) (w : world) : world :=
  {| rows := rows w; calls := calls w; clock := now |}.

(** Equality of numbers is decidable. *)
Global Instance Q_eq_dec : EqDecision Q.
Proof. solve_decision. Defined.

Global Instance number_eq_dec : EqDecision number.
Proof. solve_decision. Defined.

(** * Sample data *)

(** Sample data for the worked cases below. *)
Module Sample.

Definition entry (date_time coordinates magnitude region : string) : BMKGEarthquake :=
  {| Tanggal := "01 Jan 2024"; Jam := "17:20:30 WIB"; DateTime := date_time;
     Coordinates := coordinates; Lintang := "6.52 LS"; Bujur := "106.10 BT";
     Magnitude := magnitude; Kedalaman := "10 km"; Wilayah := region;
     Potensi := "Tidak berpotensi tsunami"; Dirasakan := None;
     Shakemap := Some "20240101172030.mmi.jpg" |}.

Definition jakarta : BMKGEarthquake :=
  entry "2024-01-01T10:20:30+00:00" "-6.52,106.10" "5.1" "Jakarta".
Definition malformed : BMKGEarthquake :=
  entry "2024-01-02T10:20:30+00:00" "-7.5,110" "abc" "Yogyakarta".
Definition medan : BMKGEarthquake :=
  entry "2024-01-03T10:20:30+00:00" "3,98.25" "6.0" "Medan".
Definition padang : BMKGEarthquake :=
  entry "2024-01-04T10:20:30+00:00" "-0.95,100.35" "7.5" "Padang".

(** Epoch milliseconds of the sample instants; anything else is an invalid
    date here. *)
Definition getTime (text : string) : number :=
  if String.eqb text "2024-01-01T10:20:30+00:00" then of_Z 1704104430000
  else if String.eqb text "2024-01-02T10:20:30+00:00" then of_Z 1704190830000
  else if String.eqb text "2024-01-03T10:20:30+00:00" then of_Z 1704277230000
  else if String.eqb text "2024-01-04T10:20:30+00:00" then of_Z 1704363630000
  else NaN.

Definition empty_world : world :=
  {| rows := ∅; calls := []; clock := of_Z 1704300000000 |}.

Definition record_of (e : BMKGEarthquake) : SupabaseEarthquake :=
  earthquakeData getTime e (clock empty_world).

End Sample.

Module NearbySample.

(** One stored record, and a distance function that puts it 100.04 km away. *)
Definition stored : SupabaseEarthquake := Sample.record_of Sample.jakarta.

Definition table : world :=
  {| rows := {[ id stored := stored ]}; calls := []; clock := of_Z 1704300000000 |}.

Definition far_100_04 (lat1 lon1 lat2 lon2 : number) : number := Fin (10004 # 100).

(** Two stored records, and a distance function that puts the one south of
    the equator 100.04 km away and the other 100.06 km away. *)
Definition north : SupabaseEarthquake := Sample.record_of Sample.medan.

Definition two_records : world :=
  {| rows := upsert_rows ∅ [stored; north]; calls := []; clock := of_Z 1704300000000 |}.

Definition just_outside (lat1 lon1 lat2 lon2 : number) : number :=
  if lt lat2 (of_Z 0) then Fin (10004 # 100) else Fin (10006 # 100).

End NearbySample.

Module ListSample.

Definition four_records : list SupabaseEarthquake :=
  Sample.record_of <$> [Sample.medan; Sample.jakarta; Sample.padang; Sample.malformed].

Definition table : world :=
  {| rows := upsert_rows ∅ four_records; calls := []; clock := of_Z 1704400000000 |}.

End ListSample.

Module CycleSample.

(** The single-event feed times out, the M5+ feed lists two events and the
    felt feed answers with something that is not the expected object. *)
Definition start : cycle :=
  fetchAllEarthquakes
    (AxiosError "timeout of 10000ms exceeded")
    (AxiosResponse (Infogempa (GempaMany [Sample.jakarta; Sample.medan])))
    (AxiosResponse NoInfogempa)
    Sample.empty_world.

Definition finish : cycle := run_cycle (Some Client) Sample.getTime 8 start.

End CycleSample.

Module ExtraSample.

(** A cycle over the four stored records: the single-event feed brings the
    Jakarta event again, the M5+ feed the Medan event, the felt feed fails. *)
Definition start : cycle :=
  fetchAllEarthquakes
    (AxiosResponse (Infogempa (GempaOne Sample.jakarta)))
    (AxiosResponse (Infogempa (GempaMany [Sample.medan])))
    (AxiosError "Network Error")
    ListSample.table.

Definition finish : cycle := run_cycle (Some Client) Sample.getTime 8 start.

(** The same feeds without a client. *)
Definition idle_finish : cycle := run_cycle None Sample.getTime 8 start.

Definition batch : list BMKGEarthquake :=
  [Sample.jakarta; Sample.malformed; Sample.medan].

(** A service that refuses the second insertion only. *)
Definition refuse_second (i : nat) : fault :=
  if (i =? 1)%nat then ErrorAfter false "null value in column" else NoFault.


End ExtraSample.

(** * Properties *)

(** ** Conversions on concrete texts *)

Example parseFloat_decimal : parseFloat "-6.52" = Fin (-163 # 25).
Proof. reflexivity. Qed.

Example parseFloat_prefix : parseFloat "10 km" = Fin 10.
Proof. reflexivity. Qed.

Example parseFloat_not_a_number : parseFloat "abc" = NaN.
Proof. reflexivity. Qed.

Example parseFloat_undefined : parseFloat_opt None = NaN.
Proof. reflexivity. Qed.

Example parseInt_default_limit : parseInt "50" = of_Z 50.
Proof. reflexivity. Qed.

Example toString_drops_trailing_zero : toString (parseFloat "106.10") = "106.1"%string.
Proof. vm_compute. reflexivity. Qed.

Example toString_negative : toString (parseFloat "-6.52") = "-6.52"%string.
Proof. vm_compute. reflexivity. Qed.

Example toString_exponent : toString (parseFloat "0.0000001") = "1e-7"%string.
Proof. vm_compute. reflexivity. Qed.

Example split_coordinates : split "," "-6.52,106.10" = ["-6.52"; "106.10"]%string.
Proof. reflexivity. Qed.

Example split_one_field : split "," "-6.52" !! 1%nat = None.
Proof. reflexivity. Qed.

Example depth_unit_stripped : replace_first " km" "" "10 km" = "10"%string.
Proof. reflexivity. Qed.

Example one_coordinate_field :
  let r := earthquakeData Sample.getTime
             (Sample.entry "2024-01-01T10:20:30+00:00" "-6.52" "5.1" "Jakarta")
             (of_Z 0) in
  longitude r = NaN /\ id r = "2024-01-01T10_20_30+00_00_-6.52_NaN"%string.
Proof. split; vm_compute; reflexivity. Qed.

Example round_one_decimal : rounded (Fin (10004 # 100)) = Fin 100.
Proof. reflexivity. Qed.

Example round_tie_goes_up : rounded (Fin (10005 # 100)) = Fin (1001 # 10).
Proof. reflexivity. Qed.

(** ** The storage wrapper *)

Lemma JSON_number_idem x : JSON_number (JSON_number x) = JSON_number x.
Proof. destruct x; reflexivity. Qed.

Lemma JSON_record_idem r : JSON_record (JSON_record r) = JSON_record r.
Proof. unfold JSON_record. cbn. rewrite !JSON_number_idem. reflexivity. Qed.

Lemma JSON_record_id r : id (JSON_record r) = id r.
Proof. reflexivity. Qed.

Lemma upsert_rows_nil t : upsert_rows t [] = t.
Proof. reflexivity. Qed.

Lemma upsert_rows_single t r : upsert_rows t [r] = <[id r := JSON_record r]> t.
Proof. reflexivity. Qed.

Lemma upsert_rows_app t l1 l2 :
  upsert_rows t (l1 ++ l2) = upsert_rows (upsert_rows t l1) l2.
Proof. unfold upsert_rows. apply foldl_app. Qed.

(** One call writes the whole payload or nothing. *)
Lemma written_all_or_nothing f l : written f l = [] \/ written f l = l.
Proof. destruct f as [|[] m|[] m]; cbn; auto. Qed.

Lemma written_single f r : written f [r] = [] \/ written f [r] = [r].
Proof. apply written_all_or_nothing. Qed.

Lemma upsertEarthquake_run supabase f r w :
  upsertEarthquake supabase f r w =
  match supabase with
  | None => (w, Normal false)
  | Some _ => (after_call f [r] w, Normal (accepted f))
  end.
Proof.
  unfold upsertEarthquake, try_catch, bind, from_earthquakes_upsert, ret, after_call.
  destruct supabase; [|reflexivity]. destruct f; reflexivity.
Qed.

Lemma upsertEarthquakes_run supabase f l w :
  upsertEarthquakes supabase f l w =
  match supabase, l with
  | None, _ | _, [] => (w, Normal (of_Z 0))
  | Some _, _ :: _ =>
      (after_call f l w,
       Normal (if accepted f then of_Z (Z.of_nat (length l)) else of_Z 0))
  end.
Proof.
  unfold upsertEarthquakes, try_catch, bind, from_earthquakes_upsert, ret, after_call.
  destruct supabase; destruct l; try reflexivity. destruct f; reflexivity.
Qed.

Lemma upsert_rows_twice t l : 
  upsert_rows (upsert_rows t [l]) [l] = upsert_rows t [l].
Proof. rewrite !upsert_rows_single. apply insert_insert_eq. Qed.

Lemma upsert_rows_cons t r l :
  upsert_rows t (r :: l) = upsert_rows (<[id r := JSON_record r]> t) l.
Proof. reflexivity. Qed.

Lemma as_stored_empty : as_stored ∅.
Proof. intros k r H. rewrite lookup_empty in H. discriminate. Qed.

Lemma upsert_rows_as_stored t l : as_stored t -> as_stored (upsert_rows t l).
Proof.
  revert t. induction l as [|r l IH]; intros t Ht; [exact Ht|].
  rewrite upsert_rows_cons. apply IH. intros k x.
  destruct (decide (id r = k)) as [E|Hne].
  - rewrite <- E, lookup_insert_eq. intros [= <-]. apply JSON_record_idem.
  - rewrite lookup_insert_ne by assumption. apply Ht.
Qed.

Lemma list_sample_as_stored : as_stored (rows ListSample.table).
Proof. apply upsert_rows_as_stored, as_stored_empty. Qed.

Lemma as_stored_magnitude t k r :
  as_stored t -> t !! k = Some r -> JSON_number (magnitude r) = magnitude r.
Proof. intros Ht Hr. exact (f_equal magnitude (Ht k r Hr)). Qed.

(** [select("*")] reads exactly the rows of the table. *)
Lemma select_all_elem (w : world) (r : SupabaseEarthquake) :
  r ∈ select_all w <-> exists k, rows w !! k = Some r.
Proof.
  unfold select_all. rewrite list_elem_of_fmap. split.
  - intros ([k x] & -> & H). exists k. apply elem_of_map_to_list. exact H.
  - intros [k H]. exists (k, r). split; [reflexivity|].
    apply elem_of_map_to_list. exact H.
Qed.


Lemma select_all_nil (w : world) : select_all w = [] <-> rows w = ∅.
Proof.
  unfold select_all. rewrite <- map_to_list_empty_iff. split.
  - apply fmap_nil_inv.
  - intros ->. reflexivity.
Qed.

(** C2. Upserting a record is idempotent on the table: doing it twice under
    the same behaviour of the service leaves the table as after doing it
    once; once an upsert has succeeded, any further upsert of the same
    record changes nothing and the record, as JSON carries it, is what a
    lookup of its id returns; and a later record with the same id replaces
    the earlier one entirely. *)
Theorem upsertEarthquake_idempotent :
  forall (supabase : option SupabaseClient) (r : SupabaseEarthquake) (w : world),
    (forall f,
        let once := fst (upsertEarthquake supabase f r w) in
        let twice := fst (upsertEarthquake supabase f r once) in
        rows twice = rows once /\ rows twice !! id r = rows once !! id r) /\
    (forall f g,
        let once := upsertEarthquake supabase f r w in
        let twice := upsertEarthquake supabase g r (fst once) in
        snd once = Normal true ->
        rows (fst twice) = rows (fst once) /\
        rows (fst once) !! id r = Some (JSON_record r) /\
        rows (fst twice) !! id r = Some (JSON_record r)) /\
    (forall f g r',
        let first := upsertEarthquake supabase f r w in
        let second := upsertEarthquake supabase g r' (fst first) in
        id r' = id r ->
        snd second = Normal true ->
        rows (fst second) !! id r = Some (JSON_record r') /\
        rows (fst second) = rows (fst (upsertEarthquake supabase g r' w))).
Proof.
  intros supabase r w. repeat split.
  - rewrite !upsertEarthquake_run. destruct supabase; simpl; [|reflexivity].
    destruct (written_single f r) as [-> | ->]; [reflexivity|].
    apply upsert_rows_twice.
  - simpl. f_equal. rewrite !upsertEarthquake_run.
    destruct supabase; simpl; [|reflexivity].
    destruct (written_single f r) as [-> | ->]; [reflexivity|].
    apply upsert_rows_twice.
  - rewrite !upsertEarthquake_run in *. destruct supabase; simpl in *; [|discriminate].
    destruct f; simpl in *; try discriminate.
    destruct (written_single g r) as [-> | ->]; [reflexivity|].
    apply upsert_rows_twice.
  - rewrite !upsertEarthquake_run in *. destruct supabase; simpl in *; [|discriminate].
    destruct f; simpl in *; try discriminate. apply lookup_insert_eq.
  - rewrite !upsertEarthquake_run in *. destruct supabase; simpl in *; [|discriminate].
    destruct f; simpl in *; try discriminate.
    destruct (written_single g r) as [-> | ->]; simpl; rewrite ?insert_insert_eq;
      apply lookup_insert_eq.
  - rewrite !upsertEarthquake_run in *. destruct supabase; simpl in *; [|discriminate].
    destruct g; simpl in *; try discriminate.
    rewrite <- H. apply lookup_insert_eq.
  - rewrite !upsertEarthquake_run in *. destruct supabase; simpl in *; [|discriminate].
    destruct g; simpl in *; try discriminate.
    destruct (written_single f r) as [-> | ->]; simpl; [reflexivity|].
    rewrite <- H. apply insert_insert_eq.
Qed.

Lemma upsertEarthquake_idempotent_witness :
  let r := Sample.record_of Sample.jakarta in
  let r' := earthquakeData Sample.getTime
              (Sample.entry "2024-01-01T10:20:30+00:00" "-6.52,106.10" "5.3" "Banten")
              (of_Z 1704300500000) in
  let once := upsertEarthquake (Some Client) NoFault r Sample.empty_world in
  snd once = Normal true /\
  rows (fst (upsertEarthquake (Some Client) (ErrorAfter false "timeout") r (fst once)))
    = rows (fst once) /\
  id r' = id r /\
  rows (fst (upsertEarthquake (Some Client) NoFault r' (fst once))) !! id r
    = Some (JSON_record r').
Proof.
  intros r r' once.
  destruct (upsertEarthquake_idempotent (Some Client) r Sample.empty_world)
    as (_ & H1 & H2).
  split; [reflexivity|].
  split; [apply (H1 NoFault (ErrorAfter false "timeout")); reflexivity|].
  split; [reflexivity|].
  apply (H2 NoFault NoFault r'); reflexivity.
Defined.

(** C4, as the code has it. The batch upsert never throws and its result is
    all or nothing: the length of the list when the client is configured,
    the list is not empty and the one remote call reports no error (every
    row is then written), and 0 in every other case. The one call writes
    all of the batch or none of it, so the result is the number of records
    written except when the batch was committed and the answer was lost:
    the result is then 0. Without a client or with an empty list no call
    is made. *)
Theorem upsertEarthquakes_all_or_nothing :
  forall (supabase : option SupabaseClient) (f : fault)
         (earthquakes : list SupabaseEarthquake) (w : world),
    let done := upsertEarthquakes supabase f earthquakes w in
    let sent := isSupabaseAvailable supabase && negb (bool_decide (earthquakes = [])) in
    snd done = Normal (if sent && accepted f
                       then of_Z (Z.of_nat (length earthquakes)) else of_Z 0) /\
    (sent = false -> fst done = w) /\
    (sent = true ->
       calls (fst done) = calls w ++ [earthquakes] /\
       rows (fst done) = upsert_rows (rows w) (written f earthquakes) /\
       (written f earthquakes = [] \/ written f earthquakes = earthquakes)) /\
    (sent && accepted f = true ->
       rows (fst done) = upsert_rows (rows w) earthquakes) /\
    (sent = true -> answer_lost f = false ->
       snd done = Normal (count_of (written f earthquakes))) /\
    (sent = true -> answer_lost f = true ->
       snd done = Normal (of_Z 0) /\
       rows (fst done) = upsert_rows (rows w) earthquakes).
Proof.
  intros supabase f l w. cbv zeta. rewrite upsertEarthquakes_run.
  destruct supabase as [c|]; destruct l as [|r l];
    cbn [isSupabaseAvailable andb negb fst snd];
    rewrite ?(bool_decide_eq_true_2 ([] = [])) by reflexivity;
    rewrite ?(bool_decide_eq_false_2 (r :: l = [])) by discriminate;
    cbn [andb negb]; repeat split; try discriminate; try reflexivity.
  - apply written_all_or_nothing.
  - destruct f; cbn [accepted]; intros; try discriminate; reflexivity.
  - destruct f as [|[] m|[] m]; cbn; intros; try discriminate; reflexivity.
  - destruct f as [|[] m|[] m]; cbn in *; try discriminate; reflexivity.
  - destruct f as [|[] m|[] m]; cbn in *; try discriminate; reflexivity.
Qed.

Lemma upsertEarthquakes_all_or_nothing_witness :
  let batch := [Sample.record_of Sample.jakarta; Sample.record_of Sample.medan] in
  rows (fst (upsertEarthquakes (Some Client) NoFault batch Sample.empty_world))
    = upsert_rows ∅ batch /\
  calls (fst (upsertEarthquakes (Some Client) (ThrowAfter false "fetch failed") batch
                Sample.empty_world)) = [batch] /\
  fst (upsertEarthquakes None NoFault batch Sample.empty_world) = Sample.empty_world /\
  snd (upsertEarthquakes (Some Client) (ErrorAfter false "duplicate key") batch
         Sample.empty_world) = Normal (of_Z 0) /\
  rows (fst (upsertEarthquakes (Some Client) (ThrowAfter true "socket hang up") batch
               Sample.empty_world)) = upsert_rows ∅ batch.
Proof.
  intros batch. split; [|split; [|split; [|split]]].
  - destruct (upsertEarthquakes_all_or_nothing (Some Client) NoFault batch
                Sample.empty_world) as (_ & _ & _ & H & _).
    apply H. reflexivity.
  - destruct (upsertEarthquakes_all_or_nothing (Some Client)
                (ThrowAfter false "fetch failed") batch Sample.empty_world)
      as (_ & _ & H & _).
    apply H. reflexivity.
  - destruct (upsertEarthquakes_all_or_nothing None NoFault batch Sample.empty_world)
      as (_ & H & _).
    apply H. reflexivity.
  - destruct (upsertEarthquakes_all_or_nothing (Some Client)
                (ErrorAfter false "duplicate key") batch Sample.empty_world)
      as (_ & _ & _ & _ & H & _).
    apply H; reflexivity.
  - destruct (upsertEarthquakes_all_or_nothing (Some Client)
                (ThrowAfter true "socket hang up") batch Sample.empty_world)
      as (_ & _ & _ & _ & _ & H).
    apply H; reflexivity.
Defined.

(** C4 as stated fails: the service commits a batch of two records and the
    answer is lost on its way back; two records are persisted and the
    result is 0. *)
Lemma upsertEarthquakes_partial_count_counterexample :
  let batch := [Sample.record_of Sample.jakarta; Sample.record_of Sample.medan] in
  let done := upsertEarthquakes (Some Client) (ErrorAfter true "TypeError: fetch failed")
                batch Sample.empty_world in
  size (rows (fst done)) = 2%nat /\
  rows (fst done) !! id (Sample.record_of Sample.jakarta)
    = Some (Sample.record_of Sample.jakarta) /\
  rows (fst done) !! id (Sample.record_of Sample.medan)
    = Some (Sample.record_of Sample.medan) /\
  snd done = Normal (of_Z 0) /\
  snd done <> Normal (of_Z (Z.of_nat (size (rows (fst done))))).
Proof.
  cbv zeta. rewrite upsertEarthquakes_run.
  cbn [fst snd after_call rows written accepted].
  split; [vm_compute; reflexivity|].
  split; [vm_compute; reflexivity|].
  split; [vm_compute; reflexivity|].
  split; [reflexivity|].
  vm_compute. intros H. discriminate H.
Qed.

(** ** The normalizer *)

Lemma replace_colon_space_clean (s : string) (c : ascii) :
  In c (list_ascii_of_string (replace_colon_space s)) ->
  c <> ":"%char /\ is_space c = false.
Proof.
  induction s as [|a s IH]; simpl; [intros []|].
  intros [<- | Hin]; [|auto].
  destruct (Ascii.eqb a ":" || is_space a)%bool eqn:E.
  - split; [discriminate | reflexivity].
  - apply orb_false_iff in E as [E1 E2]. split; [|assumption].
    intros ->. discriminate E1.
Qed.

(** C1, as the code has it. The id is the source datetime, the parsed
    latitude and the parsed longitude joined by underscores, every colon
    and white-space character then replaced by an underscore. It depends on
    nothing else: the same entry normalized twice (at any time, on any
    runtime) gets the same id, and so do two entries that agree on the
    datetime and on the parsed coordinates, or on the datetime and the
    coordinate text. No colon or white space is left in it. *)
Theorem earthquake_id_deterministic :
  forall (getTime getTime' : string -> number) (data data' : BMKGEarthquake)
         (now now' : number),
    let r := earthquakeData getTime data now in
    let r' := earthquakeData getTime' data' now' in
    id r = replace_colon_space
             (DateTime data +:+ "_" +:+ toString (latitude r) +:+ "_"
                +:+ toString (longitude r)) /\
    id (earthquakeData getTime' data now') = id r /\
    (DateTime data = DateTime data' -> latitude r = latitude r' ->
     longitude r = longitude r' -> id r = id r') /\
    (DateTime data = DateTime data' -> Coordinates data = Coordinates data' ->
     id r = id r') /\
    (forall c, In c (list_ascii_of_string (id r)) ->
               c <> ":"%char /\ is_space c = false).
Proof.
  intros G G' d d' now now'. cbv zeta. repeat split.
  - cbn [earthquakeData id latitude longitude]. intros E1 E2 E3.
    rewrite E1, E2, E3. reflexivity.
  - cbn [earthquakeData id]. intros E1 E2. rewrite E1, E2. reflexivity.
  - apply (replace_colon_space_clean _ c H).
  - apply (replace_colon_space_clean _ c H).
Qed.

Lemma earthquake_id_deterministic_witness :
  let other := Sample.entry "2024-01-01T10:20:30+00:00" "-6.520, 106.1" "4.0" "Banten" in
  let same_text := Sample.entry "2024-01-01T10:20:30+00:00" "-6.52,106.10" "4.0" "Banten" in
  id (earthquakeData Sample.getTime Sample.jakarta (of_Z 1))
    = id (earthquakeData (fun _ => NaN) other (of_Z 2)) /\
  id (earthquakeData Sample.getTime Sample.jakarta (of_Z 1))
    = id (earthquakeData (fun _ => NaN) same_text (of_Z 2)) /\
  "T"%char <> ":"%char /\ is_space "T" = false.
Proof.
  intros other same_text. split; [|split].
  - destruct (earthquake_id_deterministic Sample.getTime (fun _ => NaN) Sample.jakarta
                other (of_Z 1) (of_Z 2)) as (_ & _ & H & _).
    apply H; reflexivity.
  - destruct (earthquake_id_deterministic Sample.getTime (fun _ => NaN) Sample.jakarta
                same_text (of_Z 1) (of_Z 2)) as (_ & _ & _ & H & _).
    apply H; reflexivity.
  - destruct (earthquake_id_deterministic Sample.getTime (fun _ => NaN) Sample.jakarta
                other (of_Z 1) (of_Z 2)) as (_ & _ & _ & _ & H).
    apply H. vm_compute. tauto.
Defined.

(** C1 as stated fails: the id is not the bare concatenation of the three
    parts; the underscores that join them are part of it. *)
Lemma earthquake_id_concatenation_counterexample :
  let r := Sample.record_of Sample.jakarta in
  id r = "2024-01-01T10_20_30+00_00_-6.52_106.1" /\
  replace_colon_space
    (DateTime Sample.jakarta +:+ toString (latitude r) +:+ toString (longitude r))
  = "2024-01-01T10_20_30+00_00-6.52106.1" /\
  id r <> replace_colon_space
            (DateTime Sample.jakarta +:+ toString (latitude r) +:+ toString (longitude r)).
Proof.
  cbv zeta. split; [vm_compute; reflexivity|].
  split; [vm_compute; reflexivity|].
  vm_compute. intros H. discriminate H.
Qed.

Lemma clock_after_call f payload w : clock (after_call f payload w) = clock w.
Proof. reflexivity. Qed.

Lemma parseAndInsertEarthquake_run supabase getTime f data w :
  parseAndInsertEarthquake supabase getTime f data w =
  match supabase with
  | None => (w, Normal tt)
  | Some _ => (after_call f [earthquakeData getTime data (clock w)] w, Normal tt)
  end.
Proof.
  unfold parseAndInsertEarthquake, try_catch, bind, Date_now.
  rewrite upsertEarthquake_run. destruct supabase; reflexivity.
Qed.

(** A list feed's loop, run to its end: one request per entry, in order. *)
Lemma for_of_run supabase getTime service entries : forall i w,
  let done := for_of supabase getTime service i entries w in
  snd done = Normal tt /\
  clock (fst done) = clock w /\
  calls (fst done) =
    calls w ++ (if isSupabaseAvailable supabase
                then (fun e => [earthquakeData getTime e (clock w)]) <$> entries
                else []) /\
  ((forall j, service j = NoFault) -> isSupabaseAvailable supabase = true ->
   rows (fst done) =
     upsert_rows (rows w) ((fun e => earthquakeData getTime e (clock w)) <$> entries)).
Proof.
  induction entries as [|e entries IH]; intros i w; cbv zeta.
  - cbn. destruct supabase; cbn; rewrite app_nil_r; auto.
  - assert (E : for_of supabase getTime service i (e :: entries) w =
                for_of supabase getTime service (S i) entries
                  (fst (parseAndInsertEarthquake supabase getTime (service i) e w))).
    { cbn [for_of]. unfold bind. rewrite parseAndInsertEarthquake_run.
      destruct supabase; reflexivity. }
    rewrite E, parseAndInsertEarthquake_run. clear E.
    destruct supabase as [c|]; cbn [fst].
    + destruct (IH (S i) (after_call (service i) [earthquakeData getTime e (clock w)] w))
        as (H1 & H2 & H3 & H4).
      cbv zeta in *. rewrite clock_after_call in *.
      split; [exact H1|]. split; [exact H2|]. split.
      * rewrite H3. cbn [after_call calls isSupabaseAvailable].
        rewrite fmap_cons, <- app_assoc. reflexivity.
      * intros Hs Ha. rewrite (H4 Hs Ha). cbn [after_call rows].
        rewrite Hs, fmap_cons. reflexivity.
    + destruct (IH (S i) w) as (H1 & H2 & H3 & H4). cbv zeta in *.
      split; [exact H1|]. split; [exact H2|]. split; [exact H3|].
      intros _ Ha. discriminate Ha.
Qed.

(** C3, on the code. A list feed brings three entries, the second with the
    magnitude text "abc". [parseFloat] returns NaN for it and nothing
    checks that: the entry is normalized like the others, to a record
    whose magnitude is NaN, and handed to the upsert, so the feed makes
    three upsert calls and not two. What happens to the row is then the
    database's business: when it takes it, the table holds three rows,
    the second with magnitude null; when it refuses it (a column that must
    not be null), the refusal is one failed insertion among the three and
    the other two rows are written. *)
Theorem malformed_magnitude_is_upserted :
  let batch := [Sample.jakarta; Sample.malformed; Sample.medan] in
  let w := Sample.empty_world in
  let bad := earthquakeData Sample.getTime Sample.malformed (clock w) in
  let taken := for_of (Some Client) Sample.getTime (fun _ => NoFault) 0 batch w in
  let refused := for_of (Some Client) Sample.getTime ExtraSample.refuse_second 0 batch w in
  Magnitude Sample.malformed = "abc"%string /\
  magnitude bad = NaN /\
  parseAndInsertEarthquake (Some Client) Sample.getTime NoFault Sample.malformed w
    = (after_call NoFault [bad] w, Normal tt) /\
  snd taken = Normal tt /\
  calls (fst taken) = [[Sample.record_of Sample.jakarta]; [bad];
                       [Sample.record_of Sample.medan]] /\
  size (rows (fst taken)) = 3%nat /\
  magnitude <$> rows (fst taken) !! id bad = Some Null /\
  snd refused = Normal tt /\
  calls (fst refused) = calls (fst taken) /\
  size (rows (fst refused)) = 2%nat /\
  rows (fst refused) !! id bad = None.
Proof.
  cbv zeta. repeat split; vm_compute; reflexivity.
Qed.

(** ** Order facts on numbers *)


Lemma lt_Fin (p q : Q) : lt (Fin p) (Fin q) = true <-> (p < q)%Q.
Proof.
  unfold lt. cbn [ToNumber]. rewrite Qlt_alt. destruct (p ?= q)%Q; split; congruence.
Qed.

Lemma le_Fin (p q : Q) : le (Fin p) (Fin q) = true <-> (p <= q)%Q.
Proof.
  unfold le. cbn [ToNumber]. rewrite Qle_alt. destruct (p ?= q)%Q; split; congruence.
Qed.

Lemma lt_Fin_false (p q : Q) : lt (Fin p) (Fin q) = false <-> (q <= p)%Q.
Proof.
  rewrite <- not_true_iff_false, lt_Fin. split; [apply Qnot_lt_le | apply Qle_not_lt].
Qed.

Lemma le_Fin_false (p q : Q) : le (Fin p) (Fin q) = false <-> (q < p)%Q.
Proof.
  rewrite <- not_true_iff_false, le_Fin. split; [apply Qnot_le_lt | apply Qlt_not_le].
Qed.

(** Turn every comparison of finite numbers in the context into an
    inequality on rationals. *)
Ltac reflect_order :=
  repeat match goal with
    | H : lt (Fin _) (Fin _) = true |- _ => apply lt_Fin in H
    | H : lt (Fin _) (Fin _) = false |- _ => apply lt_Fin_false in H
    | H : le (Fin _) (Fin _) = true |- _ => apply le_Fin in H
    | H : le (Fin _) (Fin _) = false |- _ => apply le_Fin_false in H
    end.

(** ** The magnitude histogram *)

Lemma bucket_index_bound m : (bucket_index m < 4)%nat.
Proof.
  unfold bucket_index.
  repeat match goal with |- context [if ?b then _ else _] => destruct b end; lia.
Qed.

Lemma bucket_index_cases (m : number) :
  (bucket_index m = 0%nat <-> lt m (of_Z 5) = true) /\
  (bucket_index m = 1%nat <-> ge m (of_Z 5) && lt m (of_Z 6) = true) /\
  (bucket_index m = 2%nat <-> ge m (of_Z 6) && lt m (of_Z 7) = true) /\
  (bucket_index m = 3%nat <->
     lt m (of_Z 5) = false /\ ge m (of_Z 5) && lt m (of_Z 6) = false /\
     ge m (of_Z 6) && lt m (of_Z 7) = false).
Proof.
  assert (Hfin : forall q,
    (bucket_index (Fin q) = 0%nat <-> lt (Fin q) (of_Z 5) = true) /\
    (bucket_index (Fin q) = 1%nat <->
       ge (Fin q) (of_Z 5) && lt (Fin q) (of_Z 6) = true) /\
    (bucket_index (Fin q) = 2%nat <->
       ge (Fin q) (of_Z 6) && lt (Fin q) (of_Z 7) = true) /\
    (bucket_index (Fin q) = 3%nat <->
       lt (Fin q) (of_Z 5) = false /\
       ge (Fin q) (of_Z 5) && lt (Fin q) (of_Z 6) = false /\
       ge (Fin q) (of_Z 6) && lt (Fin q) (of_Z 7) = false)); [|destruct m as [|s|q|]].
  - intros q. unfold bucket_index, ge, of_Z.
    destruct (lt (Fin q) (Fin (inject_Z 5))) eqn:E1;
    destruct (le (Fin (inject_Z 5)) (Fin q)) eqn:E2;
    destruct (lt (Fin q) (Fin (inject_Z 6))) eqn:E3;
    destruct (le (Fin (inject_Z 6)) (Fin q)) eqn:E4;
    destruct (lt (Fin q) (Fin (inject_Z 7))) eqn:E5;
    cbn [andb]; reflect_order; unfold inject_Z in *;
    repeat split; intros; try discriminate; try reflexivity; try lra;
    repeat match goal with H : _ /\ _ |- _ => destruct H end; try discriminate.
  - vm_compute. intuition discriminate.
  - destruct s; vm_compute; intuition discriminate.
  - apply Hfin.
  - exact (Hfin 0%Q).
Qed.

Lemma histogram_snoc l m :
  histogram (l ++ [m]) = increment (bucket_index m) (histogram l).
Proof. unfold histogram. rewrite foldl_app. reflexivity. Qed.

Lemma tally_snoc i l m :
  tally i (l ++ [m]) = (tally i l + if decide (bucket_index m = i) then 1 else 0)%nat.
Proof.
  unfold tally. rewrite filter_app, length_app, filter_cons, filter_nil.
  destruct (decide (bucket_index m = i)); reflexivity.
Qed.

(** The loop leaves the four labels in place and counts, in each bucket,
    the scanned magnitudes that fall in it. *)
Lemma histogram_tally (l : list number) :
  histogram l =
  [ {| bucket_range := "<5"; count := tally 0 l |};
    {| bucket_range := "5-6"; count := tally 1 l |};
    {| bucket_range := "6-7"; count := tally 2 l |};
    {| bucket_range := "7+"; count := tally 3 l |} ].
Proof.
  induction l as [|m l IH] using rev_ind; [reflexivity|].
  rewrite histogram_snoc, IH, !tally_snoc.
  pose proof (bucket_index_bound m) as Hb.
  destruct (bucket_index m) as [|[|[|[|k]]]]; [| | | |lia];
    cbn; rewrite ?Nat.add_0_r, ?Nat.add_1_r; reflexivity.
Qed.


(** C8. The statistics route scans every stored magnitude and counts it in
    one of four buckets: "<5" when it is below 5, "5-6" when it is at least
    5 and below 6, "6-7" when it is at least 6 and below 7, "7+" otherwise.
    The magnitudes 3.0, 5.0, 5.9, 6.0, 7.5 give the counts 1, 2, 1, 1. *)
Theorem stats_histogram_buckets :
  (forall m : number,
      (bucket_index m = 0%nat <-> lt m (of_Z 5) = true) /\
      (bucket_index m = 1%nat <-> ge m (of_Z 5) && lt m (of_Z 6) = true) /\
      (bucket_index m = 2%nat <-> ge m (of_Z 6) && lt m (of_Z 7) = true) /\
      (bucket_index m = 3%nat <->
         lt m (of_Z 5) = false /\ ge m (of_Z 5) && lt m (of_Z 6) = false /\
         ge m (of_Z 6) && lt m (of_Z 7) = false)) /\
  (forall l : list number,
      bucket_range <$> histogram l = ["<5"; "5-6"; "6-7"; "7+"]%string /\
      forall i, (i < 4)%nat -> count <$> histogram l !! i = Some (tally i l)) /\
  histogram [Fin 3; Fin 5; Fin (59 # 10); Fin 6; Fin (75 # 10)] =
    [ {| bucket_range := "<5"; count := 1 |};
      {| bucket_range := "5-6"; count := 2 |};
      {| bucket_range := "6-7"; count := 1 |};
      {| bucket_range := "7+"; count := 1 |} ] /\
  (forall (c : SupabaseClient) (todayTimestamp : number) (w : world),
      exists body,
        get_stats (Some c) (fun _ => None) todayTimestamp w = Json body /\
        byMagnitude body = histogram (magnitude <$> select_all w)).
Proof.
  split; [exact bucket_index_cases|].
  split.
  { intros l. rewrite histogram_tally. split; [reflexivity|].
    intros [|[|[|[|i]]]] Hi; try reflexivity; lia. }
  split; [vm_compute; reflexivity|].
  intros c today w. eexists. split; reflexivity.
Qed.

Lemma stats_histogram_buckets_witness :
  count <$> histogram [Fin 3; Fin 5; Fin (59 # 10); Fin 6; Fin (75 # 10)] !! 1%nat
  = Some (tally 1 [Fin 3; Fin 5; Fin (59 # 10); Fin 6; Fin (75 # 10)]).
Proof.
  destruct stats_histogram_buckets as (_ & H & _).
  apply (H [Fin 3; Fin 5; Fin (59 # 10); Fin 6; Fin (75 # 10)]). lia.
Defined.




(** ** Sorting *)

Section SortFacts.
Context {A : Type}.
Implicit Types (l : list A) (after : A -> A -> bool).

Lemma insert_by_perm after x l : insert_by after x l ≡ₚ x :: l.
Proof.
  induction l as [|y l IH]; cbn; [reflexivity|].
  destruct (after x y); [|reflexivity].
  rewrite IH. apply perm_swap.
Qed.

Lemma sort_by_perm after l : sort_by after l ≡ₚ l.
Proof.
  induction l as [|x l IH]; cbn; [reflexivity|].
  rewrite insert_by_perm, IH. reflexivity.
Qed.

(** Sortedness for a relation [R], on lists whose elements satisfy [P]:
    it is enough that the test that orders two such elements agrees with
    [R] both ways. *)
Variables (R : A -> A -> Prop) (P : A -> Prop) (after : A -> A -> bool).
Hypothesis before_ok : forall x y, P x -> P y -> after x y = false -> R x y.
Hypothesis after_ok : forall x y, P x -> P y -> after x y = true -> R y x.

Lemma insert_by_sorted x l :
  P x -> Forall P l -> Sorted R l -> Sorted R (insert_by after x l).
Proof.
  intros Hx Hl Hs. induction l as [|y l IH]; cbn.
  - repeat constructor.
  - inversion Hl as [|? ? Hy Hl']; subst.
    inversion Hs as [|? ? Hs' Hhd]; subst.
    destruct (after x y) eqn:E.
    + constructor; [apply IH; assumption|].
      destruct l as [|z l]; cbn.
      * constructor. apply after_ok; assumption.
      * destruct (after x z); constructor.
        -- inversion Hhd; assumption.
        -- apply after_ok; assumption.
    + constructor; [assumption|]. constructor. apply before_ok; assumption.
Qed.

Lemma sort_by_sorted l : Forall P l -> Sorted R (sort_by after l).
Proof.
  induction l as [|x l IH]; cbn; intros Hl; [constructor|].
  inversion Hl; subst.
  apply insert_by_sorted; [assumption| |auto].
  rewrite sort_by_perm. assumption.
Qed.
End SortFacts.

Lemma le_not_nan a b : le a b = true -> is_nan a = false.
Proof. destruct a; [discriminate | reflexivity..]. Qed.

(** The comparator [a - b] of the nearby route orders numbers by [<=]. *)
Lemma difference_not_positive a b :
  is_nan a = false -> is_nan b = false ->
  gt (sub a b) (of_Z 0) = false -> le a b = true.
Proof.
  assert (Hnum : forall x y, is_nan x = false -> is_nan y = false ->
                        x <> Null -> y <> Null -> gt (sub x y) (of_Z 0) = false -> le x y = true).
  { intros x y. destruct x as [|s|p|]; destruct y as [|t|q|];
      try discriminate; try congruence; intros _ _ _ _.
    - destruct s, t; cbn; congruence.
    - destruct s; cbn; congruence.
    - destruct t; cbn; congruence.
    - unfold gt, sub, opp, add, of_Z. cbn [ToNumber]. intros H. reflect_order.
      apply le_Fin. rewrite !Qred_correct in H. unfold inject_Z in H. lra. }
  intros Ha Hb.
  assert (Ea : is_nan (ToNumber a) = false) by (destruct a; auto).
  assert (Eb : is_nan (ToNumber b) = false) by (destruct b; auto).
  assert (Na : ToNumber a <> Null) by (destruct a; discriminate).
  assert (Nb : ToNumber b <> Null) by (destruct b; discriminate).
  generalize (Hnum (ToNumber a) (ToNumber b) Ea Eb Na Nb).
  destruct a, b; exact (fun H => H).
Qed.

Lemma difference_positive a b :
  is_nan a = false -> is_nan b = false ->
  gt (sub a b) (of_Z 0) = true -> le b a = true.
Proof.
  assert (Hnum : forall x y, is_nan x = false -> is_nan y = false ->
                        x <> Null -> y <> Null -> gt (sub x y) (of_Z 0) = true -> le y x = true).
  { intros x y. destruct x as [|s|p|]; destruct y as [|t|q|];
      try discriminate; try congruence; intros _ _ _ _.
    - destruct s, t; cbn; congruence.
    - destruct s; cbn; congruence.
    - destruct t; cbn; congruence.
    - unfold gt, sub, opp, add, of_Z. cbn [ToNumber]. intros H. reflect_order.
      apply le_Fin. rewrite !Qred_correct in H. unfold inject_Z in H. lra. }
  intros Ha Hb.
  assert (Ea : is_nan (ToNumber a) = false) by (destruct a; auto).
  assert (Eb : is_nan (ToNumber b) = false) by (destruct b; auto).
  assert (Na : ToNumber a <> Null) by (destruct a; discriminate).
  assert (Nb : ToNumber b <> Null) by (destruct b; discriminate).
  generalize (Hnum (ToNumber a) (ToNumber b) Ea Eb Na Nb).
  destruct a, b; exact (fun H => H).
Qed.

(** ** The nearby route *)

Section Nearby.

Variable calculateDistance : number -> number -> number -> number -> number.
Variables (c : SupabaseClient) (lat lng rad : option string) (w : world).
Hypothesis lat_given : given lat = true.
Hypothesis lng_given : given lng = true.

Local Abbreviation userLat := (parseFloat_opt lat).
Local Abbreviation userLng := (parseFloat_opt lng).
Local Abbreviation radiusKm := (parseFloat (param_or "100" rad)).
Local Abbreviation result := (nearby_result calculateDistance lat lng rad w).

Lemma get_nearby_run :
  get_nearby (Some c) calculateDistance None lat lng rad w =
  Json {| nearby_data := result; userLocation := (userLat, userLng);
          radius := radiusKm |}.
Proof.
  unfold get_nearby. cbn [isSupabaseAvailable negb].
  rewrite lat_given, lng_given. reflexivity.
Qed.

Lemma with_distance_rounded eq :
  distance (with_distance calculateDistance userLat userLng eq)
  = rounded (calculateDistance userLat userLng (latitude eq) (longitude eq)).
Proof. reflexivity. Qed.

Lemma nearby_result_perm :
  result ≡ₚ
  filter (fun eq => le (distance eq) radiusKm)
    (with_distance calculateDistance userLat userLng <$> select_all w).
Proof.
  unfold nearby_result, Array_sort. rewrite sort_by_perm.
  unfold order_desc. rewrite sort_by_perm. reflexivity.
Qed.

Lemma nearby_result_elem (x : nearby_row) :
  x ∈ result <->
  exists eq, eq ∈ select_all w /\
             x = with_distance calculateDistance userLat userLng eq /\
             le (rounded (calculateDistance userLat userLng (latitude eq) (longitude eq)))
                radiusKm = true.
Proof.
  rewrite nearby_result_perm, list_elem_of_filter, list_elem_of_fmap.
  split.
  - intros (Hle & eq & -> & Hin). exists eq. split; [assumption|]. split; [reflexivity|].
    rewrite <- with_distance_rounded. apply Is_true_true. exact Hle.
  - intros (eq & Hin & -> & Hle). split; [|exists eq; auto].
    apply Is_true_true. exact Hle.
Qed.

Lemma nearby_result_sorted :
  Sorted (fun a b => le (distance a) (distance b) = true) result.
Proof.
  unfold nearby_result, Array_sort.
  apply (sort_by_sorted _ (fun x => is_nan (distance x) = false)).
  - intros x y Hx Hy. apply difference_not_positive; assumption.
  - intros x y Hx Hy. apply difference_positive; assumption.
  - apply Forall_forall. intros x [Hle _]%list_elem_of_filter.
    apply Is_true_true in Hle. exact (le_not_nan _ _ Hle).
Qed.

End Nearby.

(** C6, as the code has it. The nearby route returns exactly the stored
    records whose distance rounded to one decimal is at most the radius
    (a rounded distance equal to the radius is in, a greater one is out),
    each once and annotated with that rounded distance, in ascending order
    of it. The radius is 100 when the parameter is missing. *)
Theorem nearby_within_rounded_radius :
  forall (calculateDistance : number -> number -> number -> number -> number)
         (c : SupabaseClient) (lat lng rad : option string) (w : world),
    given lat = true -> given lng = true ->
    let userLat := parseFloat_opt lat in
    let userLng := parseFloat_opt lng in
    let radiusKm := parseFloat (param_or "100" rad) in
    let raw := fun eq => calculateDistance userLat userLng (latitude eq) (longitude eq) in
    exists body,
      get_nearby (Some c) calculateDistance None lat lng rad w = Json body /\
      radius body = radiusKm /\
      nearby_data body ≡ₚ
        filter (fun x => le (distance x) radiusKm)
          ((fun eq => {| quake := eq; distance := rounded (raw eq) |}) <$> select_all w) /\
      (forall x, x ∈ nearby_data body <->
                 exists eq, eq ∈ select_all w /\
                            x = {| quake := eq; distance := rounded (raw eq) |} /\
                            le (rounded (raw eq)) radiusKm = true) /\
      Sorted (fun a b => le (distance a) (distance b) = true) (nearby_data body).
Proof.
  intros calc c lat lng rad w Hlat Hlng. cbv zeta.
  eexists. split; [apply get_nearby_run; assumption|].
  cbn [radius nearby_data]. split; [reflexivity|].
  split; [apply nearby_result_perm|].
  split; [apply nearby_result_elem | apply nearby_result_sorted].
Qed.

Lemma nearby_within_rounded_radius_witness :
  exists body,
    get_nearby (Some Client) NearbySample.far_100_04 None
      (Some "-6.2") (Some "106.8") None NearbySample.table = Json body /\
    radius body = of_Z 100.
Proof.
  destruct (nearby_within_rounded_radius NearbySample.far_100_04 Client
              (Some "-6.2") (Some "106.8") None NearbySample.table)
    as (body & H1 & H2 & _); [reflexivity | reflexivity |].
  exists body. split; [exact H1 | exact H2].
Defined.

(** C6 as stated fails: a record whose computed distance, 100.04 km, is
    greater than the radius of 100 km is returned, with distance 100. *)
Lemma nearby_raw_distance_counterexample :
  get_nearby (Some Client) NearbySample.far_100_04 None
    (Some "-6.2") (Some "106.8") (Some "100") NearbySample.table
  = Json {| nearby_data := [ {| quake := NearbySample.stored; distance := Fin 100 |} ];
            userLocation := (Fin (-31 # 5), Fin (534 # 5));
            radius := Fin 100 |} /\
  gt (NearbySample.far_100_04 (Fin (-31 # 5)) (Fin (534 # 5))
        (latitude NearbySample.stored) (longitude NearbySample.stored))
     (Fin 100) = true.
Proof.
  split; vm_compute; reflexivity.
Qed.

(** C9. Whether a record is returned is decided on its distance rounded to
    one decimal, not on the computed one: a stored record is returned
    exactly when its rounded distance is at most the radius. A record
    whose computed distance is above the radius is returned all the same
    when its rounded distance is not, annotated with the rounded distance,
    and a record whose computed distance is within the radius is left out
    when its rounded distance is above it. With a radius of 100 km, of two
    records at 100.04 km and 100.06 km, both outside by less than 0.1 km,
    the first is returned, with distance 100, and the second is not. *)
Theorem nearby_rounds_before_filtering :
  (forall (calculateDistance : number -> number -> number -> number -> number)
          (c : SupabaseClient) (lat lng rad : option string) (w : world),
      given lat = true -> given lng = true ->
      let radiusKm := parseFloat (param_or "100" rad) in
      let raw := fun eq => calculateDistance (parseFloat_opt lat) (parseFloat_opt lng)
                             (latitude eq) (longitude eq) in
      exists body,
        get_nearby (Some c) calculateDistance None lat lng rad w = Json body /\
        (forall eq, eq ∈ select_all w ->
           ({| quake := eq; distance := rounded (raw eq) |} ∈ nearby_data body <->
            le (rounded (raw eq)) radiusKm = true) /\
           ((exists x, x ∈ nearby_data body /\ quake x = eq) <->
            le (rounded (raw eq)) radiusKm = true)) /\
        (forall eq, eq ∈ select_all w ->
           gt (raw eq) radiusKm = true -> le (rounded (raw eq)) radiusKm = true ->
           {| quake := eq; distance := rounded (raw eq) |} ∈ nearby_data body) /\
        (forall eq, eq ∈ select_all w ->
           le (raw eq) radiusKm = true -> le (rounded (raw eq)) radiusKm = false ->
           forall x, x ∈ nearby_data body -> quake x <> eq)) /\
  (let raw := fun eq => NearbySample.just_outside (Fin (-31 # 5)) (Fin (534 # 5))
                          (latitude eq) (longitude eq) in
   select_all NearbySample.two_records ≡ₚ [NearbySample.stored; NearbySample.north] /\
   raw NearbySample.stored = Fin (10004 # 100) /\
   raw NearbySample.north = Fin (10006 # 100) /\
   gt (raw NearbySample.stored) (Fin 100) = true /\
   lt (sub (raw NearbySample.stored) (Fin 100)) (Fin (5 # 100)) = true /\
   gt (raw NearbySample.north) (Fin 100) = true /\
   get_nearby (Some Client) NearbySample.just_outside None
     (Some "-6.2") (Some "106.8") (Some "100") NearbySample.two_records
   = Json {| nearby_data := [ {| quake := NearbySample.stored; distance := Fin 100 |} ];
             userLocation := (Fin (-31 # 5), Fin (534 # 5));
             radius := Fin 100 |}).
Proof.
  split.
  - intros calc c lat lng rad w Hlat Hlng. cbv zeta.
    eexists. split; [apply get_nearby_run; assumption|].
    cbn [nearby_data].
    assert (Hexact : forall eq, eq ∈ select_all w ->
      ({| quake := eq;
          distance := rounded (calc (parseFloat_opt lat) (parseFloat_opt lng)
                                 (latitude eq) (longitude eq)) |}
         ∈ nearby_result calc lat lng rad w <->
       le (rounded (calc (parseFloat_opt lat) (parseFloat_opt lng)
                      (latitude eq) (longitude eq)))
          (parseFloat (param_or "100" rad)) = true)).
    { intros eq Hin. rewrite nearby_result_elem by assumption. split.
      - intros (eq' & _ & E & Hle). injection E as <-. exact Hle.
      - intros Hle. exists eq. auto. }
    assert (Hsome : forall eq, eq ∈ select_all w ->
      ((exists x, x ∈ nearby_result calc lat lng rad w /\ quake x = eq) <->
       le (rounded (calc (parseFloat_opt lat) (parseFloat_opt lng)
                      (latitude eq) (longitude eq)))
          (parseFloat (param_or "100" rad)) = true)).
    { intros eq Hin. split.
      - intros (x & Hx & <-).
        apply nearby_result_elem in Hx as (eq' & _ & -> & Hle); assumption.
      - intros Hle. eexists. split; [apply Hexact; eassumption|reflexivity]. }
    split; [intros eq Hin; split; [apply Hexact | apply Hsome]; assumption|].
    split.
    + intros eq Hin _ Hle. apply Hexact; assumption.
    + intros eq Hin _ Hgt x Hx E.
      assert (H : le (rounded (calc (parseFloat_opt lat) (parseFloat_opt lng)
                                 (latitude eq) (longitude eq)))
                     (parseFloat (param_or "100" rad)) = true)
        by (apply Hsome; [assumption | exists x; auto]).
      congruence.
  - cbv zeta. split; [|repeat split; vm_compute; reflexivity].
    vm_compute. apply perm_swap.
Qed.

Lemma nearby_rounds_before_filtering_witness :
  exists body,
    get_nearby (Some Client) NearbySample.just_outside None
      (Some "-6.2") (Some "106.8") (Some "100") NearbySample.two_records = Json body /\
    {| quake := NearbySample.stored; distance := rounded (Fin (10004 # 100)) |}
      ∈ nearby_data body /\
    forall x, x ∈ nearby_data body -> quake x <> NearbySample.north.
Proof.
  destruct nearby_rounds_before_filtering as [H _].
  destruct (H NearbySample.just_outside Client (Some "-6.2") (Some "106.8")
              (Some "100") NearbySample.two_records)
    as (body & Hbody & Hiff & Hin & _); [reflexivity | reflexivity |].
  assert (Hstored : NearbySample.stored ∈ select_all NearbySample.two_records).
  { vm_compute. apply list_elem_of_further, list_elem_of_here. }
  assert (Hnorth : NearbySample.north ∈ select_all NearbySample.two_records).
  { vm_compute. apply list_elem_of_here. }
  exists body. split; [exact Hbody|]. split.
  - apply (Hin NearbySample.stored Hstored); vm_compute; reflexivity.
  - intros x Hx E.
    assert (Hle : le (rounded (Fin (10006 # 100))) (Fin 100) = true)
      by (apply (Hiff NearbySample.north Hnorth); exists x; auto).
    vm_compute in Hle. discriminate Hle.
Defined.

(** ** The list route *)

Lemma Qred_inject_Z (z : Z) : Qred (inject_Z z) = inject_Z z.
Proof. apply Qcanon.Qred_identity. cbn. apply Z.gcd_1_r. Qed.

Lemma is_integer_eq (q : Q) (z : Z) : (q == inject_Z z)%Q -> is_integer q = true.
Proof.
  intros H. unfold is_integer. rewrite (Qred_complete _ _ H), Qred_inject_Z. reflexivity.
Qed.

Lemma Qfloor_eq (q : Q) (z : Z) : (q == inject_Z z)%Q -> Qfloor q = z.
Proof. intros H. rewrite H. apply Qfloor_Z. Qed.

(** The last index asked for, [offset + limit - 1]. *)
Lemma last_index (a n : Z) :
  exists t, sub (add (of_Z a) (of_Z n)) (of_Z 1) = Fin t /\
            (t == inject_Z (a + n - 1))%Q.
Proof.
  eexists. split; [reflexivity|].
  rewrite !Qred_correct. unfold Z.sub. rewrite !inject_Z_plus, inject_Z_opp. ring.
Qed.

Lemma range_slice {A} (a n : Z) (l : list A) :
  0 <= a -> 0 <= n ->
  range (of_Z a) (sub (add (of_Z a) (of_Z n)) (of_Z 1)) l
  = Some (take (Z.to_nat n) (drop (Z.to_nat a) l)).
Proof.
  intros Ha Hn. destruct (last_index a n) as (t & -> & Ht).
  unfold range, of_Z.
  rewrite (is_integer_eq (inject_Z a) a), (is_integer_eq t _ Ht) by reflexivity.
  rewrite (Qfloor_eq t _ Ht), Qfloor_Z.
  destruct (Z.leb_spec 0 a) as [_|?]; [|lia]. cbn [andb].
  do 3 f_equal. lia.
Qed.

Lemma or_zero_count {A} (l : list A) : or_zero (count_of l) = count_of l.
Proof.
  unfold or_zero, count_of, truthy, of_Z, q_is_zero.
  destruct (length l) as [|n]; reflexivity.
Qed.

Lemma get_list_page (c : SupabaseClient) (w : world) (lim off : string) (a n : Z) :
  parseInt off = of_Z a -> parseInt lim = of_Z n -> 0 <= a -> 0 <= n ->
  get_list (Some c) None (Some lim) (Some off) None None w =
  Json {| list_data := take (Z.to_nat n)
                         (drop (Z.to_nat a) (order_desc timestamp (select_all w)));
          pagination := {| total := count_of (select_all w);
                           limit := of_Z n; offset := of_Z a |} |}.
Proof.
  intros Hoff Hlim Ha Hn. unfold get_list.
  cbn [isSupabaseAvailable negb param_or given or_null_opt].
  rewrite Hoff, Hlim, range_slice, or_zero_count by assumption. reflexivity.
Qed.

Lemma key_le_total a b : key_le a b = false -> key_le b a = true.
Proof.
  destruct a as [|s|p|]; destruct b as [|t|q|]; try (destruct s); try (destruct t);
    cbn; try congruence.
  rewrite <- (Qcompare_antisym p q). destruct (p ?= q)%Q; cbn; congruence.
Qed.

Lemma lt_key_le a b : a <> Null -> b <> Null -> lt a b = true -> key_le b a = false.
Proof.
  destruct a as [|s|p|]; destruct b as [|t|q|]; try (destruct s); try (destruct t);
    cbn; try congruence.
  rewrite <- (Qcompare_antisym p q). destruct (p ?= q)%Q; cbn; congruence.
Qed.

Lemma order_desc_perm key l : order_desc key l ≡ₚ l.
Proof. apply sort_by_perm. Qed.

Lemma order_desc_sorted key l :
  Sorted (fun a b => key_le (key b) (key a) = true) (order_desc key l).
Proof.
  unfold order_desc.
  apply (sort_by_sorted _ (fun _ => True)).
  - intros x y _ _ H. apply negb_false_iff in H. exact H.
  - intros x y _ _ H. apply negb_true_iff in H. apply key_le_total. exact H.
  - apply Forall_forall. auto.
Qed.

Lemma apart_sym a b : apart a b -> apart b a.
Proof. unfold apart. tauto. Qed.

Lemma lt_irrefl a : lt a a = false.
Proof.
  destruct a as [|s|p|]; try (destruct s); cbn; try reflexivity.
  assert (E : (p ?= p)%Q = Eq) by (apply Qeq_alt; reflexivity).
  rewrite E. reflexivity.
Qed.

Lemma apart_neq a b : apart a b -> a <> b.
Proof. intros (_ & _ & [H|H]) ->; rewrite lt_irrefl in H; discriminate. Qed.

Lemma distinct_timestamps_perm l l' :
  l ≡ₚ l' -> distinct_timestamps l -> distinct_timestamps l'.
Proof.
  induction 1 as [|x l l' Hp IH|x y l|l l' l'' _ IH1 _ IH2]; cbn; auto.
  - intros [H1 H2]. split; [rewrite <- Hp; exact H1 | auto].
  - intros [H1 [H2 H3]]. inversion H1 as [|? ? Hyx Hy]; subst.
    repeat split; try assumption. constructor; [apply apart_sym|]; assumption.
Qed.

Lemma distinct_timestamps_NoDup l : distinct_timestamps l -> NoDup l.
Proof.
  induction l as [|x l IH]; cbn; [constructor|]. intros [H1 H2].
  constructor; [|auto]. intros Hin.
  rewrite Forall_forall in H1. exact (apart_neq _ _ (H1 _ Hin) eq_refl).
Qed.

Lemma sorted_strictly l :
  distinct_timestamps l ->
  Sorted (fun a b => key_le (timestamp b) (timestamp a) = true) l ->
  Sorted (fun a b => lt (timestamp b) (timestamp a) = true) l.
Proof.
  induction l as [|x l IH]; cbn; [constructor|]. intros [H1 H2] Hs.
  inversion Hs as [|? ? Hs' Hhd]; subst. constructor; [auto|].
  destruct l as [|y l]; constructor.
  inversion Hhd as [|? ? Hle]; subst.
  inversion H1 as [|? ? (Hx & Hy & [Hxy|Hyx]) _]; subst.
  - apply lt_key_le in Hxy; [congruence | assumption..].
  - assumption.
Qed.

(** C7. The list route returns a slice of the matching rows taken in
    descending order of timestamp, [limit] rows from position [offset],
    with [limit] 50 and [offset] 0 when they are not given, and
    [pagination.total] is the number of matching rows, not the size of the
    page. Over four records with different timestamps, the pages
    (limit 2, offset 0) and (limit 2, offset 2) have two records each,
    together hold every record exactly once, in strictly descending order
    of timestamp, and both report a total of 4. *)
Theorem list_pagination :
  forall (c : SupabaseClient) (w : world),
    let sorted := order_desc timestamp (select_all w) in
    (forall supabase db_error minMagnitude maxMagnitude,
        get_list supabase db_error None None minMagnitude maxMagnitude w =
        get_list supabase db_error (Some "50") (Some "0") minMagnitude maxMagnitude w) /\
    (exists body,
        get_list (Some c) None None None None None w = Json body /\
        limit (pagination body) = of_Z 50 /\ offset (pagination body) = of_Z 0 /\
        list_data body = take 50 sorted) /\
    (sorted ≡ₚ select_all w /\
     Sorted (fun a b => key_le (timestamp b) (timestamp a) = true) sorted) /\
    (forall (lim off : string) (a n : Z),
        parseInt off = of_Z a -> parseInt lim = of_Z n -> 0 <= a -> 0 <= n ->
        exists body,
          get_list (Some c) None (Some lim) (Some off) None None w = Json body /\
          list_data body = take (Z.to_nat n) (drop (Z.to_nat a) sorted) /\
          total (pagination body) = count_of (select_all w)) /\
    (size (rows w) = 4%nat -> distinct_timestamps (select_all w) ->
     exists first second,
       get_list (Some c) None (Some "2") (Some "0") None None w = Json first /\
       get_list (Some c) None (Some "2") (Some "2") None None w = Json second /\
       total (pagination first) = of_Z 4 /\
       total (pagination second) = of_Z 4 /\
       length (list_data first) = 2%nat /\
       length (list_data second) = 2%nat /\
       list_data first ++ list_data second ≡ₚ select_all w /\
       NoDup (list_data first ++ list_data second) /\
       Sorted (fun a b => lt (timestamp b) (timestamp a) = true)
         (list_data first ++ list_data second)).
Proof.
  intros c w sorted.
  split; [reflexivity|].
  split.
  { eexists. split; [apply (get_list_page c w "50" "0" 0 50); lia || reflexivity|].
    cbn [pagination list_data limit offset]. rewrite drop_0. auto. }
  split; [split; [apply order_desc_perm | apply order_desc_sorted]|].
  split.
  { intros lim off a n Hoff Hlim Ha Hn. eexists.
    split; [apply (get_list_page c w lim off a n); assumption|].
    split; reflexivity. }
  intros Hsize Hdistinct.
  assert (Hlen : length (select_all w) = 4%nat).
  { unfold select_all. rewrite length_fmap, length_map_to_list. exact Hsize. }
  assert (Hsorted : length sorted = 4%nat).
  { unfold sorted. rewrite order_desc_perm. exact Hlen. }
  assert (Hall : take 2 (drop 0 sorted) ++ take 2 (drop 2 sorted) = sorted).
  { rewrite drop_0, take_take_drop. apply take_ge. lia. }
  exists {| list_data := take 2 (drop 0 sorted);
            pagination := {| total := count_of (select_all w);
                             limit := of_Z 2; offset := of_Z 0 |} |},
         {| list_data := take 2 (drop 2 sorted);
            pagination := {| total := count_of (select_all w);
                             limit := of_Z 2; offset := of_Z 2 |} |}.
  split; [apply (get_list_page c w "2" "0" 0 2); lia || reflexivity|].
  split; [apply (get_list_page c w "2" "2" 2 2); lia || reflexivity|].
  cbn [pagination list_data total]. unfold count_of. rewrite Hlen, Hall.
  split; [reflexivity|]. split; [reflexivity|].
  split; [rewrite length_take, length_drop; lia|].
  split; [rewrite length_take, length_drop; lia|].
  assert (Hd : distinct_timestamps sorted).
  { apply (distinct_timestamps_perm (select_all w)); [|assumption].
    symmetry. apply order_desc_perm. }
  split; [apply order_desc_perm|].
  split; [apply distinct_timestamps_NoDup; assumption|].
  apply sorted_strictly; [assumption | apply order_desc_sorted].
Qed.

Lemma list_pagination_witness :
  exists first second third,
    get_list (Some Client) None (Some "2") (Some "0") None None ListSample.table
      = Json first /\
    get_list (Some Client) None (Some "2") (Some "2") None None ListSample.table
      = Json second /\
    get_list (Some Client) None (Some "3") (Some "1") None None ListSample.table
      = Json third /\
    region <$> list_data first = ["Padang"; "Medan"]%string /\
    region <$> list_data second = ["Yogyakarta"; "Jakarta"]%string /\
    region <$> list_data third = ["Medan"; "Yogyakarta"; "Jakarta"]%string /\
    total (pagination first) = of_Z 4 /\
    total (pagination second) = of_Z 4.
Proof.
  destruct (list_pagination Client ListSample.table) as (_ & _ & _ & Hpage & H).
  destruct H as (first & second & H1 & H2 & H3 & H4 & _).
  - vm_compute. reflexivity.
  - vm_compute.
    repeat first [ exact I | split | apply Forall_nil | apply Forall_cons
                 | discriminate | left; reflexivity | right; reflexivity ].
  - destruct (Hpage "3"%string "1"%string 1 3) as (third & H5 & H6 & _);
      [reflexivity | reflexivity | lia | lia |].
    exists first, second, third.
    split; [exact H1|]. split; [exact H2|]. split; [exact H5|].
    assert (E1 := H1). assert (E2 := H2).
    vm_compute in E1, E2. injection E1 as <-. injection E2 as <-.
    rewrite H6.
    repeat split; vm_compute; reflexivity.
Defined.

(** ** The ingestion cycle *)

Section Cycle.

Variable supabase : option SupabaseClient.
Variable getTime : string -> number.

Lemma open_feed_run k reply w :
  open_feed k reply w =
  (w, match reply with
      | AxiosError message => Throw message
      | AxiosResponse NoInfogempa =>
          Throw "TypeError: Cannot read properties of undefined (reading 'gempa')"
      | AxiosResponse (Infogempa g) => Normal (entries_of k g)
      end).
Proof. destruct reply as [m|[|g]]; reflexivity. Qed.

Lemma for_of_one service e w :
  for_of supabase getTime service 0 [e] w
  = parseAndInsertEarthquake supabase getTime (service 0%nat) e w.
Proof.
  cbn [for_of]. unfold bind. rewrite parseAndInsertEarthquake_run.
  destruct supabase; reflexivity.
Qed.

(** Each feed function is the loop over the entries of its feed. *)
Lemma fetchLatestEarthquake_run reply service w :
  fetchLatestEarthquake supabase getTime reply service w
  = for_of supabase getTime service 0 (feed_entries Latest reply) w.
Proof.
  unfold fetchLatestEarthquake, try_catch, bind.
  destruct reply as [m|[|[|e|l]]]; cbn [axios_get get_gempa throw ret feed_entries entries_of];
    try reflexivity.
  rewrite for_of_one, parseAndInsertEarthquake_run. destruct supabase; reflexivity.
Qed.

Lemma list_feed_run (k : feed) reply service w :
  k <> Latest ->
  try_catch
    (let* response := axios_get reply in
     let* gempaList := get_gempa response in
     match gempaList with
     | GempaMany l => for_of supabase getTime service 0 l
     | _ => ret tt
     end)
    (fun _ => ret tt) w
  = for_of supabase getTime service 0 (feed_entries k reply) w.
Proof.
  intros Hk. unfold try_catch, bind.
  destruct reply as [m|[|[|e|l]]]; cbn [axios_get get_gempa throw ret feed_entries];
    try (destruct k; try congruence; reflexivity).
  destruct (for_of_run supabase getTime service l 0 w) as (H & _).
  destruct k; try congruence; cbn [entries_of];
    destruct (for_of supabase getTime service 0 l w) as [w' r]; cbn in H; subst;
    reflexivity.
Qed.

Lemma fetchM5Earthquakes_run reply service w :
  fetchM5Earthquakes supabase getTime reply service w
  = for_of supabase getTime service 0 (feed_entries M5 reply) w.
Proof. apply list_feed_run. discriminate. Qed.

Lemma fetchFeltEarthquakes_run reply service w :
  fetchFeltEarthquakes supabase getTime reply service w
  = for_of supabase getTime service 0 (feed_entries Felt reply) w.
Proof. apply list_feed_run. discriminate. Qed.

Lemma feed_entries_failed k reply : fetch_failed reply -> feed_entries k reply = [].
Proof. destruct reply as [m|[|g]]; cbn; tauto. Qed.

Lemma for_of_cons service i e entries w :
  for_of supabase getTime service i (e :: entries) w
  = for_of supabase getTime service (S i) entries
      (fst (parseAndInsertEarthquake supabase getTime (service i) e w)).
Proof.
  cbn [for_of]. unfold bind. rewrite parseAndInsertEarthquake_run.
  destruct supabase; reflexivity.
Qed.

(** Resumed again and again on its own, a feed goes through the very
    insertions of its function and settles on the same world. *)
Lemma inserting_runs service todo : forall i w,
  rtc (branch_next supabase getTime)
    (Inserting todo, w)
    (Settled (Normal tt), fst (for_of supabase getTime service i todo w)).
Proof.
  induction todo as [|g rest IH]; intros i w.
  - apply rtc_once. exists NoFault. reflexivity.
  - eapply rtc_l; [|rewrite for_of_cons; apply (IH (S i))].
    exists (service i). cbn [fst snd branch_step].
    rewrite parseAndInsertEarthquake_run. destruct supabase; reflexivity.
Qed.

Lemma feed_runs_function k reply service w :
  rtc (branch_next supabase getTime)
    (Fetching k reply, w)
    (Settled (Normal tt),
     fst (for_of supabase getTime service 0 (feed_entries k reply) w)).
Proof.
  destruct reply as [m|[|g]].
  - apply rtc_once. exists NoFault. reflexivity.
  - apply rtc_once. exists NoFault. reflexivity.
  - eapply rtc_l; [|apply inserting_runs].
    exists NoFault. reflexivity.
Qed.

(** What one resumption of a feed does. *)
Lemma branch_step_spec f b w b' w' :
  branch_step supabase getTime f b w = Some (b', w') ->
  (forall e, b' <> Settled (Throw e)) /\
  (work b' < work b)%nat /\
  (length (calls w') + requests supabase (length (todo_of b'))
   = length (calls w) + requests supabase (length (todo_of b)))%nat /\
  (todo_of b = [] -> w' = w).
Proof.
  unfold requests. destruct b as [k reply|[|g rest]|r]; cbn [branch_step]; intros H;
    try discriminate.
  - rewrite open_feed_run in H. destruct reply as [m|[|g]]; inversion H; subst;
      cbn [work todo_of feed_entries length]; repeat split; try discriminate; auto; lia.
  - inversion H; subst. cbn. repeat split; try discriminate; auto; lia.
  - rewrite parseAndInsertEarthquake_run in H.
    destruct supabase; inversion H; subst; cbn [work todo_of length isSupabaseAvailable
      after_call calls]; rewrite ?length_app; cbn [length];
      repeat split; try discriminate; lia.
Qed.

Lemma requests_add a b : requests supabase (a + b) = (requests supabase a + requests supabase b)%nat.
Proof. unfold requests. destruct (isSupabaseAvailable supabase); reflexivity. Qed.

Lemma cycle_step_ok latest m5 felt w s s' :
  cycle_ok supabase latest m5 felt w s -> cycle_step supabase getTime s s' ->
  cycle_ok supabase latest m5 felt w s' /\ (remaining s' < remaining s)%nat.
Proof.
  intros (H1 & H2 & H3 & H4) Hstep. unfold cycle_ok, remaining, outstanding in *.
  rewrite !requests_add in *.
  destruct Hstep as [f s b w' Hb|f s b w' Hb|f s b w' Hb];
    apply branch_step_spec in Hb as (Hb1 & Hb2 & Hb3 & _);
    cbn [latest_feed m5_feed felt_feed store]; repeat split; auto; lia.
Qed.

Lemma cycle_reachable_ok latest m5 felt w s :
  rtc (cycle_step supabase getTime) (fetchAllEarthquakes latest m5 felt w) s ->
  cycle_ok supabase latest m5 felt w s.
Proof.
  intros Hrun.
  eapply (rtc_ind_r (fun s => cycle_ok supabase latest m5 felt w s)); [| |exact Hrun].
  - unfold cycle_ok, outstanding. cbn. repeat split; try discriminate.
  - intros y z _ Hstep IH. exact (proj1 (cycle_step_ok _ _ _ _ _ _ IH Hstep)).
Qed.

Lemma promise_of_cases b :
  (forall e, b <> Settled (Throw e)) ->
  (promise_of b = Fulfilled /\ resolved b) \/
  (promise_of b = Pending /\ ~ resolved b /\
   forall f w, exists next, branch_step supabase getTime f b w = Some next).
Proof.
  intros H. destruct b as [k reply|[|g rest]|[[]|e]]; cbn.
  - right. split; [reflexivity|]. split; [discriminate|]. eauto.
  - right. split; [reflexivity|]. split; [discriminate|]. eauto.
  - right. split; [reflexivity|]. split; [discriminate|]. eauto.
  - left. split; reflexivity.
  - destruct (H e eq_refl).
Qed.

End Cycle.

(** C5. Whatever each of the three requests gives, no feed function
    raises: a failed fetch (network error, timeout, status, or a body
    without the expected object) ends in the [catch] of its own function,
    leaves the world as it was and contributes no entry, and the other two
    feeds go on. The promise of the whole cycle is never rejected; it is
    fulfilled exactly when the three feeds have resolved, until then some
    feed can always be resumed, every resumption brings the end nearer,
    and at the end one request has been sent for each entry of the feeds
    that answered. *)
Theorem fetchAllEarthquakes_isolates_failures :
  forall (supabase : option SupabaseClient) (getTime : string -> number)
         (latest m5 felt : axios_reply) (w : world),
    (forall reply service w0,
        snd (fetchLatestEarthquake supabase getTime reply service w0) = Normal tt /\
        snd (fetchM5Earthquakes supabase getTime reply service w0) = Normal tt /\
        snd (fetchFeltEarthquakes supabase getTime reply service w0) = Normal tt) /\
    (forall reply service w0,
        fetch_failed reply ->
        (forall k, feed_entries k reply = []) /\
        fst (fetchLatestEarthquake supabase getTime reply service w0) = w0 /\
        fst (fetchM5Earthquakes supabase getTime reply service w0) = w0 /\
        fst (fetchFeltEarthquakes supabase getTime reply service w0) = w0) /\
    (forall s,
        rtc (cycle_step supabase getTime) (fetchAllEarthquakes latest m5 felt w) s ->
        (forall e, cycle_promise s <> Rejected e) /\
        (cycle_promise s = Fulfilled <->
         resolved (latest_feed s) /\ resolved (m5_feed s) /\ resolved (felt_feed s)) /\
        (cycle_promise s = Pending -> exists s', cycle_step supabase getTime s s') /\
        (forall s', cycle_step supabase getTime s s' -> (remaining s' < remaining s)%nat) /\
        (cycle_promise s = Fulfilled ->
         length (calls (store s))
         = (length (calls w)
            + requests supabase
                (length (feed_entries Latest latest) + length (feed_entries M5 m5)
                 + length (feed_entries Felt felt)))%nat)).
Proof.
  intros supabase getTime latest m5 felt w.
  split.
  { intros reply service w0.
    rewrite fetchLatestEarthquake_run, fetchM5Earthquakes_run, fetchFeltEarthquakes_run.
    repeat split; apply for_of_run. }
  split.
  { intros reply service w0 Hfail.
    rewrite fetchLatestEarthquake_run, fetchM5Earthquakes_run, fetchFeltEarthquakes_run.
    rewrite !feed_entries_failed by assumption.
    split; [intros k; apply feed_entries_failed; assumption|].
    repeat split; reflexivity. }
  intros s Hrun.
  pose proof (cycle_reachable_ok supabase getTime latest m5 felt w s Hrun) as Hok.
  assert (Hdec : forall s', cycle_step supabase getTime s s' ->
                            (remaining s' < remaining s)%nat).
  { intros s' Hstep. exact (proj2 (cycle_step_ok _ _ _ _ _ _ _ _ Hok Hstep)). }
  destruct Hok as (H1 & H2 & H3 & H4).
  assert (Hdone : resolved (latest_feed s) /\ resolved (m5_feed s) /\
                  resolved (felt_feed s) ->
                  length (calls (store s))
                  = (length (calls w)
                     + requests supabase
                         (length (feed_entries Latest latest)
                          + length (feed_entries M5 m5)
                          + length (feed_entries Felt felt)))%nat).
  { intros (R1 & R2 & R3). unfold outstanding, resolved in *.
    rewrite R1, R2, R3 in H4. cbn in H4.
    unfold requests in H4 at 1. destruct (isSupabaseAvailable supabase); lia. }
  unfold cycle_promise. cbn [Promise_all].
  destruct (promise_of_cases supabase getTime _ H1) as [[P1 R1]|(P1 & N1 & S1)];
  destruct (promise_of_cases supabase getTime _ H2) as [[P2 R2]|(P2 & N2 & S2)];
  destruct (promise_of_cases supabase getTime _ H3) as [[P3 R3]|(P3 & N3 & S3)];
    rewrite P1, P2, P3;
    (split; [discriminate|]);
    (split; [split; [try discriminate; auto | tauto]|]);
    (split; [|split; [exact Hdec | intros; try discriminate; auto]]);
    intros; try discriminate.
  - destruct (S3 NoFault (store s)) as [[b w'] Hb]. eexists. exact (step_felt _ _ _ _ _ _ Hb).
  - destruct (S2 NoFault (store s)) as [[b w'] Hb]. eexists. exact (step_m5 _ _ _ _ _ _ Hb).
  - destruct (S2 NoFault (store s)) as [[b w'] Hb]. eexists. exact (step_m5 _ _ _ _ _ _ Hb).
  - destruct (S1 NoFault (store s)) as [[b w'] Hb]. eexists. exact (step_latest _ _ _ _ _ _ Hb).
  - destruct (S1 NoFault (store s)) as [[b w'] Hb]. eexists. exact (step_latest _ _ _ _ _ _ Hb).
  - destruct (S1 NoFault (store s)) as [[b w'] Hb]. eexists. exact (step_latest _ _ _ _ _ _ Hb).
  - destruct (S1 NoFault (store s)) as [[b w'] Hb]. eexists. exact (step_latest _ _ _ _ _ _ Hb).
Qed.

Lemma resume_first_step supabase getTime s s' :
  resume_first supabase getTime s = Some s' -> cycle_step supabase getTime s s'.
Proof.
  unfold resume_first.
  destruct (branch_step supabase getTime NoFault (latest_feed s) (store s))
    as [[b w']|] eqn:E1.
  { intros [= <-]. exact (step_latest _ _ _ _ _ _ E1). }
  destruct (branch_step supabase getTime NoFault (m5_feed s) (store s))
    as [[b w']|] eqn:E2.
  { intros [= <-]. exact (step_m5 _ _ _ _ _ _ E2). }
  destruct (branch_step supabase getTime NoFault (felt_feed s) (store s))
    as [[b w']|] eqn:E3; [|discriminate].
  intros [= <-]. exact (step_felt _ _ _ _ _ _ E3).
Defined.

Lemma run_cycle_rtc supabase getTime fuel : forall s,
  rtc (cycle_step supabase getTime) s (run_cycle supabase getTime fuel s).
Proof.
  induction fuel as [|n IH]; intros s; cbn; [apply rtc_refl|].
  destruct (resume_first supabase getTime s) as [s'|] eqn:E; [|apply rtc_refl].
  eapply rtc_l; [apply resume_first_step; exact E | apply IH].
Defined.

Lemma fetchAllEarthquakes_isolates_failures_witness :
  cycle_promise CycleSample.finish = Fulfilled /\
  length (calls (store CycleSample.finish)) = 2%nat /\
  fst (fetchLatestEarthquake (Some Client) Sample.getTime
         (AxiosError "timeout of 10000ms exceeded") (fun _ => NoFault)
         Sample.empty_world) = Sample.empty_world /\
  (exists s', cycle_step (Some Client) Sample.getTime CycleSample.start s') /\
  (remaining (run_cycle (Some Client) Sample.getTime 1 CycleSample.start)
   < remaining CycleSample.start)%nat.
Proof.
  destruct (fetchAllEarthquakes_isolates_failures (Some Client) Sample.getTime
              (AxiosError "timeout of 10000ms exceeded")
              (AxiosResponse (Infogempa (GempaMany [Sample.jakarta; Sample.medan])))
              (AxiosResponse NoInfogempa) Sample.empty_world) as (_ & Hfail & H).
  split; [vm_compute; reflexivity|].
  split.
  { destruct (H CycleSample.finish (run_cycle_rtc _ _ _ _)) as (_ & _ & _ & _ & Hcalls).
    rewrite Hcalls; [reflexivity | vm_compute; reflexivity]. }
  split.
  { apply (Hfail (AxiosError "timeout of 10000ms exceeded") (fun _ => NoFault)
             Sample.empty_world). exact I. }
  destruct (H CycleSample.start (rtc_refl _ _)) as (_ & _ & Hgo & Hdec & _).
  split; [apply Hgo; reflexivity|].
  apply Hdec. apply resume_first_step. reflexivity.
Defined.

(** * Further properties *)

(** ** The table under upserts *)

Lemma written_subseteq f (l : list SupabaseEarthquake) : written f l ⊆ l.
Proof.
  destruct (written_all_or_nothing f l) as [-> | ->];
    [apply list_subseteq_nil | reflexivity].
Qed.

Lemma upsert_rows_keeps t l : forall k,
  is_Some (t !! k) -> is_Some (upsert_rows t l !! k).
Proof.
  revert t. induction l as [|r l IH]; intros t k Hk; [exact Hk|].
  rewrite upsert_rows_cons. apply IH.
  destruct (decide (id r = k)) as [E|Hne].
  - rewrite <- E, lookup_insert_eq. eauto.
  - rewrite lookup_insert_ne by assumption. exact Hk.
Qed.

Lemma upsert_rows_ok t l : table_ok t -> table_ok (upsert_rows t l).
Proof.
  revert t. induction l as [|r l IH]; intros t Ht; [exact Ht|].
  rewrite upsert_rows_cons. apply IH. intros k x.
  destruct (decide (id r = k)) as [E|Hne].
  - rewrite <- E, lookup_insert_eq. intros [= <-]. reflexivity.
  - rewrite lookup_insert_ne by assumption. apply Ht.
Qed.

Lemma upsert_rows_frame t l k :
  (forall r, r ∈ l -> id r <> k) -> upsert_rows t l !! k = t !! k.
Proof.
  revert t. induction l as [|r l IH]; intros t Hl; [reflexivity|].
  rewrite upsert_rows_cons, IH.
  - apply lookup_insert_ne. apply Hl. left.
  - intros x Hx. apply Hl. right. exact Hx.
Qed.

Lemma after_call_keeps f payload w k :
  is_Some (rows w !! k) -> is_Some (rows (after_call f payload w) !! k).
Proof. apply upsert_rows_keeps. Qed.

Lemma after_call_ok f payload w :
  table_ok (rows w) -> table_ok (rows (after_call f payload w)).
Proof. apply upsert_rows_ok. Qed.

Lemma after_call_frame f payload w k :
  (forall r, r ∈ payload -> id r <> k) ->
  rows (after_call f payload w) !! k = rows w !! k.
Proof.
  intros H. apply upsert_rows_frame. intros r Hr. apply H.
  exact (written_subseteq f payload r Hr).
Qed.

Lemma table_ok_empty : table_ok ∅.
Proof. intros k r H. rewrite lookup_empty in H. discriminate. Qed.

Lemma list_sample_table_ok : table_ok (rows ListSample.table).
Proof. apply upsert_rows_ok, table_ok_empty. Qed.

Lemma branch_step_world supabase getTime f b w b' w' :
  branch_step supabase getTime f b w = Some (b', w') ->
  todo_of b' ⊆ todo_of b /\
  (w' = w \/
   exists g, g ∈ todo_of b /\ isSupabaseAvailable supabase = true /\
             w' = after_call f [earthquakeData getTime g (clock w)] w).
Proof.
  destruct b as [k reply|[|g rest]|r]; cbn [branch_step]; intros H; try discriminate.
  - rewrite open_feed_run in H. destruct reply as [m|[|g]]; inversion H; subst;
      cbn [todo_of feed_entries]; split; auto; try reflexivity; apply list_subseteq_nil.
  - inversion H; subst. split; [reflexivity | auto].
  - rewrite parseAndInsertEarthquake_run in H.
    destruct supabase; inversion H; subst; cbn [todo_of]; split;
      try (apply list_subseteq_cons_l; fail); try (intros x Hx; right; exact Hx); auto.
    right. exists g. split; [left|]. split; reflexivity.
Qed.

Lemma world_step_inv supabase getTime latest m5 felt w f b b' w0 w' :
  todo_of b ⊆ cycle_entries latest m5 felt ->
  branch_step supabase getTime f b w0 = Some (b', w') ->
  clock w0 = clock w ->
  (forall k, is_Some (rows w !! k) -> is_Some (rows w0 !! k)) ->
  (table_ok (rows w) -> table_ok (rows w0)) ->
  (forall k,
      (forall e, e ∈ cycle_entries latest m5 felt -> id (normalized getTime w e) <> k) ->
      rows w0 !! k = rows w !! k) ->
  (isSupabaseAvailable supabase = false -> w0 = w) ->
  todo_of b' ⊆ cycle_entries latest m5 felt /\
  clock w' = clock w /\
  (forall k, is_Some (rows w !! k) -> is_Some (rows w' !! k)) /\
  (table_ok (rows w) -> table_ok (rows w')) /\
  (forall k,
      (forall e, e ∈ cycle_entries latest m5 felt -> id (normalized getTime w e) <> k) ->
      rows w' !! k = rows w !! k) /\
  (isSupabaseAvailable supabase = false -> w' = w).
Proof.
  intros Htodo Hstep Hc Hk Hok Hfr Hno.
  apply branch_step_world in Hstep as [Hsub [->|(g & Hg & Hav & ->)]].
  - split; [etransitivity; eassumption|]. auto.
  - split; [etransitivity; eassumption|].
    split; [exact Hc|].
    split; [intros k Hin; apply after_call_keeps; auto|].
    split; [intros Hw; apply after_call_ok; auto|].
    split.
    + intros k Hother. rewrite after_call_frame; [auto|].
      intros r ->%list_elem_of_singleton. rewrite Hc.
      apply (Hother g). apply Htodo. exact Hg.
    + intros Hnone. congruence.
Qed.

Lemma cycle_step_inv supabase getTime latest m5 felt w s s' :
  cycle_inv supabase getTime latest m5 felt w s ->
  cycle_step supabase getTime s s' ->
  cycle_inv supabase getTime latest m5 felt w s'.
Proof.
  intros (T1 & T2 & T3 & Hc & Hk & Hok & Hfr & Hno) Hstep. unfold cycle_inv.
  destruct Hstep as [f s b w' Hb|f s b w' Hb|f s b w' Hb];
    cbn [latest_feed m5_feed felt_feed store];
    [ destruct (world_step_inv _ _ _ _ _ _ _ _ _ _ _ T1 Hb Hc Hk Hok Hfr Hno)
    | destruct (world_step_inv _ _ _ _ _ _ _ _ _ _ _ T2 Hb Hc Hk Hok Hfr Hno)
    | destruct (world_step_inv _ _ _ _ _ _ _ _ _ _ _ T3 Hb Hc Hk Hok Hfr Hno) ];
    tauto.
Qed.

Lemma cycle_reachable_inv supabase getTime latest m5 felt w s :
  rtc (cycle_step supabase getTime) (fetchAllEarthquakes latest m5 felt w) s ->
  cycle_inv supabase getTime latest m5 felt w s.
Proof.
  intros Hrun.
  eapply (rtc_ind_r (fun s => cycle_inv supabase getTime latest m5 felt w s));
    [| |exact Hrun].
  - unfold cycle_inv, cycle_entries. cbn [fetchAllEarthquakes latest_feed m5_feed
      felt_feed store todo_of].
    repeat split; auto; set_solver.
  - intros y z _ Hstep IH. exact (cycle_step_inv _ _ _ _ _ _ _ _ IH Hstep).
Qed.

(** X1. In every state an ingestion cycle can reach, whatever the feeds and
    the storage service answer, no id that was in the table has left it,
    a table that stored every row under its own id still does, and a row
    whose id is not the id of one of the cycle's entries is exactly what
    it was. *)
Theorem ingestion_only_adds :
  forall (supabase : option SupabaseClient) (getTime : string -> number)
         (latest m5 felt : axios_reply) (w : world) (s : cycle),
    rtc (cycle_step supabase getTime) (fetchAllEarthquakes latest m5 felt w) s ->
    (forall k, is_Some (rows w !! k) -> is_Some (rows (store s) !! k)) /\
    (table_ok (rows w) -> table_ok (rows (store s))) /\
    (forall k,
        (forall e, e ∈ cycle_entries latest m5 felt ->
                   id (normalized getTime w e) <> k) ->
        rows (store s) !! k = rows w !! k) /\
    (isSupabaseAvailable supabase = false -> store s = w).
Proof.
  intros supabase getTime latest m5 felt w s Hrun.
  destruct (cycle_reachable_inv _ _ _ _ _ _ _ Hrun) as (_ & _ & _ & _ & H1 & H2 & H3 & H4).
  auto.
Qed.

Lemma ingestion_only_adds_witness :
  let k := id (Sample.record_of Sample.padang) in
  table_ok (rows (store ExtraSample.finish)) /\
  is_Some (rows (store ExtraSample.finish) !! k) /\
  rows (store ExtraSample.finish) !! k = rows ListSample.table !! k.
Proof.
  intros k.
  destruct (ingestion_only_adds (Some Client) Sample.getTime
              (AxiosResponse (Infogempa (GempaOne Sample.jakarta)))
              (AxiosResponse (Infogempa (GempaMany [Sample.medan])))
              (AxiosError "Network Error") ListSample.table ExtraSample.finish
              (run_cycle_rtc _ _ _ _)) as (H1 & H2 & H3 & _).
  split; [apply H2, list_sample_table_ok|].
  split.
  - apply H1. exists (Sample.record_of Sample.padang). vm_compute. reflexivity.
  - apply H3. intros e He.
    cbv [cycle_entries feed_entries entries_of app] in He.
    apply elem_of_cons in He as [->|He]; [vm_compute; discriminate|].
    apply elem_of_cons in He as [->|He]; [vm_compute; discriminate|].
    inversion He.
Defined.

(** ** A list feed, entry by entry *)

Section FeedEntries.

Variables (c : SupabaseClient) (getTime : string -> number) (service : nat -> fault).





End FeedEntries.



(** ** The lookup routes *)

Lemma key_le_refl a : key_le a a = true.
Proof.
  destruct a as [|s|p|]; try (destruct s); cbn; try reflexivity.
  assert (E : (p ?= p)%Q = Eq) by (apply Qeq_alt; reflexivity).
  rewrite E. reflexivity.
Qed.

Lemma key_le_trans a b c : key_le a b = true -> key_le b c = true -> key_le a c = true.
Proof.
  destruct a as [|s|p|]; destruct b as [|t|q|]; destruct c as [|u|r|];
    try (destruct s); try (destruct t); try (destruct u); cbn; try congruence.
  intros H1 H2. apply (le_Fin p r). apply (le_Fin p q) in H1. apply (le_Fin q r) in H2.
  lra.
Qed.

Lemma key_le_number a b :
  key_le a b = true -> is_nan b = false -> b <> Null -> le a b = true.
Proof. destruct a, b; cbn; congruence. Qed.

(** The head of a list in descending order of a key is above every element. *)
Lemma order_desc_head key l e rest :
  order_desc key l = e :: rest ->
  e ∈ l /\ forall r, r ∈ l -> key_le (key r) (key e) = true.
Proof.
  intros H.
  assert (Hperm := order_desc_perm key l).
  assert (Hsorted := order_desc_sorted key l).
  rewrite H in Hperm, Hsorted.
  split; [rewrite <- Hperm; left|].
  intros r Hr. rewrite <- Hperm in Hr.
  apply elem_of_cons in Hr as [->|Hr]; [apply key_le_refl|].
  assert (Hall : Forall (fun b => key_le (key b) (key e) = true) rest).
  { apply (Sorted_extends (R := fun a b => key_le (key b) (key a) = true));
      [|exact Hsorted].
    intros x y z Hxy Hyz. exact (key_le_trans _ _ _ Hyz Hxy). }
  rewrite Forall_forall in Hall. exact (Hall r Hr).
Qed.

(** X3. The latest route answers 404 on an empty table, and otherwise returns
    a stored record whose timestamp no stored record exceeds (a missing
    timestamp, null, counting as the highest, as the database orders
    it). *)
Theorem latest_is_most_recent :
  forall (c : SupabaseClient) (w : world),
    (rows w = ∅ -> get_latest (Some c) None w = Failure 404 "No earthquakes found") /\
    (rows w <> ∅ ->
     exists e,
       get_latest (Some c) None w = Json e /\
       (exists k, rows w !! k = Some e) /\
       (forall k r, rows w !! k = Some r ->
                    key_le (timestamp r) (timestamp e) = true) /\
       (is_nan (timestamp e) = false -> timestamp e <> Null ->
        forall k r, rows w !! k = Some r -> le (timestamp r) (timestamp e) = true)).
Proof.
  intros c w. unfold get_latest. cbn [isSupabaseAvailable negb]. split.
  - intros H. apply select_all_nil in H. rewrite H. reflexivity.
  - intros H.
    destruct (order_desc timestamp (select_all w)) as [|e rest] eqn:E.
    + exfalso. apply H, select_all_nil.
      apply Permutation_nil. rewrite <- E. apply order_desc_perm.
    + destruct (order_desc_head _ _ _ _ E) as [Hin Hmax].
      exists e. cbn [take]. split; [reflexivity|].
      split; [apply select_all_elem; exact Hin|].
      assert (Hkey : forall k r, rows w !! k = Some r ->
                                 key_le (timestamp r) (timestamp e) = true).
      { intros k r Hr. apply Hmax, select_all_elem. eauto. }
      split; [exact Hkey|].
      intros Hnum Hnull k r Hr. apply key_le_number; eauto.
Qed.

Lemma latest_is_most_recent_witness :
  get_latest (Some Client) None Sample.empty_world
    = Failure 404 "No earthquakes found" /\
  exists e, get_latest (Some Client) None ListSample.table = Json e /\
            region e = "Padang"%string.
Proof.
  split.
  - apply (latest_is_most_recent Client Sample.empty_world). reflexivity.
  - destruct (latest_is_most_recent Client ListSample.table) as [_ H].
    destruct H as (e & He & _).
    + intros E. apply (f_equal size) in E. vm_compute in E. discriminate E.
    + exists e. split; [exact He|].
      assert (E := He). vm_compute in E. injection E as <-. reflexivity.
Defined.

Lemma get_by_id_lookup (c : SupabaseClient) (w : world) (k : string) :
  table_ok (rows w) ->
  get_by_id (Some c) None k w =
  match rows w !! k with
  | Some r => Json r
  | None => Failure 404 "Earthquake not found"
  end.
Proof.
  intros Hok. unfold get_by_id. cbn [isSupabaseAvailable negb].
  assert (Hsame : forall x, x ∈ filter (fun r => id r = k) (select_all w) ->
                            rows w !! k = Some x).
  { intros x [Hid [k' Hx]%select_all_elem]%list_elem_of_filter.
    rewrite <- Hid, (Hok k' x Hx). exact Hx. }
  destruct (rows w !! k) as [r|] eqn:E.
  - assert (Hr : r ∈ filter (fun r => id r = k) (select_all w)).
    { apply list_elem_of_filter. split; [apply (Hok k r E)|].
      apply select_all_elem. eauto. }
    destruct (filter (fun r => id r = k) (select_all w)) as [|x l]; [inversion Hr|].
    cbn [take]. assert (Hx : Some r = Some x) by (apply Hsame; left).
    injection Hx as ->. reflexivity.
  - destruct (filter (fun r => id r = k) (select_all w)) as [|x l]; [reflexivity|].
    assert (Hx : None = Some x) by (apply Hsame; left). discriminate.
Qed.

(** X4. On a table that stores every row under its own id, the by-id route
    returns the row of that id when there is one and 404 when there is
    none; what it returns always carries the id asked for. *)
Theorem lookup_by_id :
  forall (c : SupabaseClient) (w : world) (k : string),
    table_ok (rows w) ->
    (forall r, rows w !! k = Some r -> get_by_id (Some c) None k w = Json r) /\
    (rows w !! k = None ->
     get_by_id (Some c) None k w = Failure 404 "Earthquake not found") /\
    (forall r, get_by_id (Some c) None k w = Json r -> id r = k /\ rows w !! k = Some r).
Proof.
  intros c w k Hok. rewrite (get_by_id_lookup c w k Hok).
  repeat split.
  - intros r ->. reflexivity.
  - intros ->. reflexivity.
  - destruct (rows w !! k) as [x|] eqn:E; [|discriminate].
    injection H as <-. exact (Hok k x E).
  - destruct (rows w !! k) as [x|] eqn:E; [|discriminate].
    injection H as <-. reflexivity.
Qed.

Lemma lookup_by_id_witness :
  get_by_id (Some Client) None (id (Sample.record_of Sample.medan)) ListSample.table
    = Json (Sample.record_of Sample.medan) /\
  get_by_id (Some Client) None "2024-01-05" ListSample.table
    = Failure 404 "Earthquake not found".
Proof.
  split.
  - apply (lookup_by_id Client ListSample.table _ list_sample_table_ok).
    vm_compute. reflexivity.
  - apply (lookup_by_id Client ListSample.table _ list_sample_table_ok).
    vm_compute. reflexivity.
Defined.

(** X5. After a single upsert that reported success, the by-id route returns
    that record for its id, as JSON carries it, and answers for every
    other id as before. *)
Theorem upsert_then_lookup :
  forall (c : SupabaseClient) (f : fault) (r : SupabaseEarthquake) (w : world),
    table_ok (rows w) ->
    snd (upsertEarthquake (Some c) f r w) = Normal true ->
    let w' := fst (upsertEarthquake (Some c) f r w) in
    table_ok (rows w') /\
    get_by_id (Some c) None (id r) w' = Json (JSON_record r) /\
    (forall k, k <> id r ->
               get_by_id (Some c) None k w' = get_by_id (Some c) None k w).
Proof.
  intros c f r w Hok Htrue. cbv zeta. rewrite upsertEarthquake_run in *.
  cbn [fst snd] in *. destruct f; try discriminate.
  assert (Hok' : table_ok (rows (after_call NoFault [r] w))) by (apply after_call_ok, Hok).
  split; [exact Hok'|].
  rewrite !get_by_id_lookup by assumption.
  split.
  - change (rows (after_call NoFault [r] w))
      with (<[id r := JSON_record r]> (rows w)).
    rewrite lookup_insert_eq. reflexivity.
  - intros k Hk. rewrite !get_by_id_lookup by assumption.
    change (rows (after_call NoFault [r] w))
      with (<[id r := JSON_record r]> (rows w)).
    rewrite lookup_insert_ne by congruence. reflexivity.
Qed.

Lemma upsert_then_lookup_witness :
  let r := Sample.record_of Sample.jakarta in
  get_by_id (Some Client) None (id r)
    (fst (upsertEarthquake (Some Client) NoFault r Sample.empty_world))
    = Json (JSON_record r).
Proof.
  intros r.
  destruct (upsert_then_lookup Client NoFault r Sample.empty_world)
    as (_ & H & _); [apply table_ok_empty | reflexivity |].
  exact H.
Defined.

(** ** The list route with its filters *)

Lemma get_list_filtered_page (c : SupabaseClient) (w : world)
    (lim off : string) (minMagnitude maxMagnitude : option string) (a n : Z) :
  parseInt off = of_Z a -> parseInt lim = of_Z n -> 0 <= a -> 0 <= n ->
  get_list (Some c) None (Some lim) (Some off) minMagnitude maxMagnitude w =
  Json {| list_data :=
            take (Z.to_nat n)
              (drop (Z.to_nat a)
                 (order_desc timestamp (matching minMagnitude maxMagnitude w)));
          pagination := {| total := count_of (matching minMagnitude maxMagnitude w);
                           limit := of_Z n; offset := of_Z a |} |}.
Proof.
  intros Hoff Hlim Ha Hn. unfold get_list, matching.
  cbn [isSupabaseAvailable negb param_or].
  rewrite Hoff, Hlim, range_slice, or_zero_count by assumption. reflexivity.
Qed.

Lemma matching_elem (minMagnitude maxMagnitude : option string) (w : world)
    (r : SupabaseEarthquake) :
  r ∈ matching minMagnitude maxMagnitude w <->
  (exists k, rows w !! k = Some r) /\
  (given minMagnitude = true ->
   gte (magnitude r) (parseFloat_opt minMagnitude) = true) /\
  (given maxMagnitude = true ->
   lte (magnitude r) (parseFloat_opt maxMagnitude) = true).
Proof.
  unfold matching.
  destruct (given minMagnitude), (given maxMagnitude);
    rewrite ?list_elem_of_filter, select_all_elem, ?Is_true_true;
    intuition congruence.
Qed.

(** [parseFloat] gives a number or NaN, never null. *)
Lemma parseFloat_not_null (input : string) : parseFloat input <> Null.
Proof.
  unfold parseFloat.
  destruct (read_sign (trim_start input)) as [neg s].
  destruct (String.prefix "Infinity" s); [discriminate|].
  destruct (digits_from 0 0 s) as [[ip ilen] r].
  destruct (match r with
            | String "."%char r1 => digits_from 0 0 r1
            | _ => (0, 0%nat, r)
            end) as [[fp flen] r'].
  destruct ilen, flen; discriminate.
Qed.

Lemma parseFloat_opt_not_null (input : option string) : parseFloat_opt input <> Null.
Proof. destruct input; apply parseFloat_not_null. Qed.

(** The filters of the database against the comparisons of JavaScript, on
    a stored value. *)
Lemma gte_number column bound :
  JSON_number column = column -> is_nan bound = false -> bound <> Null ->
  (gte column bound = true <-> column <> Null /\ ge column bound = true).
Proof.
  destruct column as [|s|q|]; try discriminate; intros _ Hb Hn.
  - destruct bound as [|t|b|]; try discriminate; try congruence;
      cbn; intuition congruence.
  - cbn. intuition congruence.
Qed.

Lemma lte_number column bound :
  JSON_number column = column -> is_nan bound = false -> bound <> Null ->
  (lte column bound = true <-> column <> Null /\ le column bound = true).
Proof.
  destruct column as [|s|q|]; try discriminate; intros _ Hb Hn.
  - destruct bound as [|t|b|]; try discriminate; try congruence;
      cbn; intuition congruence.
  - cbn. intuition congruence.
Qed.

Lemma gte_nan column : JSON_number column = column -> gte column NaN = false.
Proof. destruct column; try discriminate; reflexivity. Qed.

Lemma lte_nan column :
  JSON_number column = column -> (lte column NaN = true <-> column <> Null).
Proof. destruct column; try discriminate; cbn; intuition congruence. Qed.

(** X6. On a table as upserts leave it, with the magnitude bounds given,
    the page of the list route holds matching rows only, at most [limit]
    of them, and the total counts all the matching rows. The bounds are
    compared by the database: against a bound that is a number, a row
    matches when it has a magnitude (not null) on the right side of the
    bound; against a bound that is not a number, which the database takes
    as a NaN above every number, no row matches a lower bound and every
    row with a magnitude matches an upper bound. An empty bound is no
    bound. *)
Theorem list_filters_by_magnitude :
  forall (c : SupabaseClient) (w : world) (lim off : string)
         (minMagnitude maxMagnitude : option string) (a n : Z),
    parseInt off = of_Z a -> parseInt lim = of_Z n -> 0 <= a -> 0 <= n ->
    as_stored (rows w) ->
    let lower := parseFloat_opt minMagnitude in
    let upper := parseFloat_opt maxMagnitude in
    exists body,
      get_list (Some c) None (Some lim) (Some off) minMagnitude maxMagnitude w
        = Json body /\
      (forall r, r ∈ list_data body -> r ∈ matching minMagnitude maxMagnitude w) /\
      (length (list_data body) <= Z.to_nat n)%nat /\
      total (pagination body)
        = count_of (matching minMagnitude maxMagnitude w) /\
      (forall r, r ∈ matching minMagnitude maxMagnitude w <->
         (exists k, rows w !! k = Some r) /\
         (given minMagnitude = true -> gte (magnitude r) lower = true) /\
         (given maxMagnitude = true -> lte (magnitude r) upper = true)) /\
      (forall r, (exists k, rows w !! k = Some r) ->
         (is_nan lower = false ->
          (gte (magnitude r) lower = true <->
           magnitude r <> Null /\ ge (magnitude r) lower = true)) /\
         (is_nan upper = false ->
          (lte (magnitude r) upper = true <->
           magnitude r <> Null /\ le (magnitude r) upper = true)) /\
         (lower = NaN -> gte (magnitude r) lower = false) /\
         (upper = NaN -> (lte (magnitude r) upper = true <-> magnitude r <> Null))).
Proof.
  intros c w lim off minM maxM a n Hoff Hlim Ha Hn Hw. cbv zeta.
  eexists. split; [apply get_list_filtered_page; eassumption|].
  cbn [list_data pagination total].
  split; [|split; [|split; [reflexivity | split; [apply matching_elem|]]]].
  - intros r Hr. apply subseteq_take, subseteq_drop in Hr.
    rewrite order_desc_perm in Hr. exact Hr.
  - rewrite length_take. lia.
  - intros r [k Hr]. pose proof (as_stored_magnitude _ _ _ Hw Hr) as Hm.
    split; [|split; [|split]].
    + intros H. apply gte_number; [assumption.. | apply parseFloat_opt_not_null].
    + intros H. apply lte_number; [assumption.. | apply parseFloat_opt_not_null].
    + intros ->. apply gte_nan. assumption.
    + intros ->. apply lte_nan. assumption.
Qed.

Lemma list_filters_by_magnitude_witness :
  (exists body,
     get_list (Some Client) None (Some "10") (Some "0") (Some "5.5") (Some "")
       ListSample.table = Json body /\
     region <$> list_data body = ["Padang"; "Medan"]%string /\
     total (pagination body) = of_Z 2) /\
  (exists body,
     get_list (Some Client) None (Some "10") (Some "0") None (Some "abc")
       ListSample.table = Json body /\
     region <$> list_data body = ["Padang"; "Medan"; "Jakarta"]%string /\
     total (pagination body) = of_Z 3) /\
  (exists body,
     get_list (Some Client) None (Some "10") (Some "0") (Some "abc") None
       ListSample.table = Json body /\
     list_data body = [] /\
     total (pagination body) = of_Z 0).
Proof.
  split; [|split].
  - destruct (list_filters_by_magnitude Client ListSample.table "10" "0"
                (Some "5.5"%string) (Some ""%string) 0 10)
      as (body & H1 & _); try reflexivity; try lia; [apply list_sample_as_stored|].
    exists body. split; [exact H1|].
    assert (E := H1). vm_compute in E. injection E as <-.
    split; vm_compute; reflexivity.
  - destruct (list_filters_by_magnitude Client ListSample.table "10" "0"
                None (Some "abc"%string) 0 10)
      as (body & H1 & _); try reflexivity; try lia; [apply list_sample_as_stored|].
    exists body. split; [exact H1|].
    assert (E := H1). vm_compute in E. injection E as <-.
    split; vm_compute; reflexivity.
  - destruct (list_filters_by_magnitude Client ListSample.table "10" "0"
                (Some "abc"%string) None 0 10)
      as (body & H1 & _); try reflexivity; try lia; [apply list_sample_as_stored|].
    exists body. split; [exact H1|].
    assert (E := H1). vm_compute in E. injection E as <-.
    split; vm_compute; reflexivity.
Defined.

(** Distinct sort keys leave one descending order only. *)
Lemma apart_keys a b :
  apart a b -> key_le (timestamp a) (timestamp b) = true ->
  key_le (timestamp b) (timestamp a) = true -> False.
Proof.
  intros (Ha & Hb & [H|H]) H1 H2;
    apply lt_key_le in H; try assumption; congruence.
Qed.

Lemma recent_first_head x l :
  recent_first (x :: l) ->
  forall y, y ∈ l -> key_le (timestamp y) (timestamp x) = true.
Proof.
  intros Hs.
  assert (Hall : Forall (fun b => key_le (timestamp b) (timestamp x) = true) l).
  { apply (Sorted_extends (R := fun a b => key_le (timestamp b) (timestamp a) = true));
      [|exact Hs].
    intros u v t Huv Hvt. exact (key_le_trans _ _ _ Hvt Huv). }
  rewrite Forall_forall in Hall. exact Hall.
Qed.

Lemma recent_first_unique l : forall l',
  l ≡ₚ l' -> distinct_timestamps l -> recent_first l -> recent_first l' -> l = l'.
Proof.
  induction l as [|x l IH]; intros l' Hp Hd Hs Hs'.
  - symmetry. apply Permutation_nil. exact Hp.
  - destruct l' as [|y l'].
    { symmetry in Hp. apply Permutation_nil in Hp. discriminate. }
    assert (E : x = y).
    { assert (Hx : x ∈ y :: l') by (rewrite <- Hp; left).
      assert (Hy : y ∈ x :: l) by (rewrite Hp; left).
      apply elem_of_cons in Hx as [E|Hx]; [exact E|].
      apply elem_of_cons in Hy as [E|Hy]; [symmetry; exact E|].
      exfalso. destruct Hd as [Hd _]. rewrite Forall_forall in Hd.
      apply (apart_keys x y (Hd y Hy)).
      - exact (recent_first_head y l' Hs' x Hx).
      - exact (recent_first_head x l Hs y Hy). }
    subst y. f_equal. apply IH.
    + apply (Permutation_cons_inv Hp).
    + apply Hd.
    + inversion Hs; assumption.
    + inversion Hs'; assumption.
Qed.

Lemma order_desc_determined l answer :
  distinct_timestamps l -> answer ≡ₚ l -> recent_first answer ->
  answer = order_desc timestamp l.
Proof.
  intros Hd Hp Hs. symmetry. apply recent_first_unique.
  - rewrite order_desc_perm. symmetry. exact Hp.
  - apply (distinct_timestamps_perm l); [|exact Hd].
    symmetry. apply order_desc_perm.
  - apply order_desc_sorted.
  - exact Hs.
Qed.

(** X7. When the matching rows have pairwise different timestamps, none of
    them null, their descending order is the same whatever order the
    database scans them in, and two consecutive pages of the list route
    that lie within their number, put end to end, are the page that
    starts where the first does and is as long as both; the three report
    the same total. *)
Theorem consecutive_pages_join :
  forall (c : SupabaseClient) (w : world)
         (off1 lim1 off2 lim2 lim3 : string)
         (minMagnitude maxMagnitude : option string) (a n m : Z),
    0 <= a -> 0 <= n -> 0 <= m ->
    parseInt off1 = of_Z a -> parseInt lim1 = of_Z n ->
    parseInt off2 = of_Z (a + n) -> parseInt lim2 = of_Z m ->
    parseInt lim3 = of_Z (n + m) ->
    distinct_timestamps (matching minMagnitude maxMagnitude w) ->
    (Z.to_nat (a + n) <= length (matching minMagnitude maxMagnitude w))%nat ->
    exists first second both,
      get_list (Some c) None (Some lim1) (Some off1) minMagnitude maxMagnitude w
        = Json first /\
      get_list (Some c) None (Some lim2) (Some off2) minMagnitude maxMagnitude w
        = Json second /\
      get_list (Some c) None (Some lim3) (Some off1) minMagnitude maxMagnitude w
        = Json both /\
      list_data first ++ list_data second = list_data both /\
      total (pagination first) = total (pagination both) /\
      total (pagination second) = total (pagination both) /\
      (forall answer,
          answer ≡ₚ matching minMagnitude maxMagnitude w -> recent_first answer ->
          list_data first = take (Z.to_nat n) (drop (Z.to_nat a) answer) /\
          list_data second = take (Z.to_nat m) (drop (Z.to_nat (a + n)) answer) /\
          list_data both = take (Z.to_nat (n + m)) (drop (Z.to_nat a) answer)) /\
      length (list_data first) = Z.to_nat n.
Proof.
  intros c w off1 lim1 off2 lim2 lim3 minM maxM a n m Ha Hn Hm H1 H2 H3 H4 H5 Hd Hin.
  do 3 eexists.
  split; [apply (get_list_filtered_page c w lim1 off1 minM maxM a n); assumption|].
  split; [apply (get_list_filtered_page c w lim2 off2 minM maxM (a + n) m);
          assumption || lia|].
  split; [apply (get_list_filtered_page c w lim3 off1 minM maxM a (n + m));
          assumption || lia|].
  cbn [list_data pagination total].
  split; [|split; [reflexivity|split; [reflexivity|split]]].
  - rewrite !Z2Nat.inj_add by assumption.
    rewrite <- drop_drop. apply take_take_drop.
  - intros answer Hp Hs.
    rewrite (order_desc_determined _ answer Hd Hp Hs). auto.
  - rewrite length_take, length_drop.
    assert (E : length (order_desc timestamp (matching minM maxM w))
                = length (matching minM maxM w))
      by (rewrite order_desc_perm; reflexivity).
    rewrite E. rewrite Z2Nat.inj_add in Hin by assumption. lia.
Qed.

Lemma consecutive_pages_join_witness :
  exists first second both,
    get_list (Some Client) None (Some "1") (Some "0") None None ListSample.table
      = Json first /\
    get_list (Some Client) None (Some "2") (Some "1") None None ListSample.table
      = Json second /\
    get_list (Some Client) None (Some "3") (Some "0") None None ListSample.table
      = Json both /\
    list_data first ++ list_data second = list_data both.
Proof.
  destruct (consecutive_pages_join Client ListSample.table "0" "1" "1" "2" "3"
              None None 0 1 2)
    as (first & second & both & H1 & H2 & H3 & H4 & _);
    [lia | lia | lia | reflexivity | reflexivity | reflexivity | reflexivity
    | reflexivity | | | ].
  - vm_compute.
    repeat first [ exact I | split | apply Forall_nil | apply Forall_cons
                 | discriminate | left; reflexivity | right; reflexivity ].
  - vm_compute. lia.
  - exists first, second, both. auto.
Defined.

(** ** More on the nearby route *)

Section Stability.
Context {A : Type} (P : A -> Prop) `{!forall x, Decision (P x)}.
Variable after : A -> A -> bool.
Hypothesis tie : forall x y, P x -> P y -> after x y = false.

Lemma insert_by_filter x l :
  filter P (insert_by after x l) = filter P (x :: l).
Proof.
  induction l as [|y l IH]; [reflexivity|]. cbn [insert_by].
  destruct (after x y) eqn:E; [|reflexivity].
  rewrite filter_cons, IH, !filter_cons.
  destruct (decide (P x)) as [Hx|Hx], (decide (P y)) as [Hy|Hy]; try reflexivity.
  rewrite (tie x y Hx Hy) in E. discriminate.
Qed.

(** The sort keeps the order of the elements it does not tell apart. *)
Lemma sort_by_filter l : filter P (sort_by after l) = filter P l.
Proof.
  induction l as [|x l IH]; [reflexivity|]. cbn [sort_by].
  rewrite insert_by_filter, !filter_cons, IH. reflexivity.
Qed.
End Stability.

Lemma difference_of_equals (d : number) : gt (sub d d) (of_Z 0) = false.
Proof.
  assert (Hfin : forall q, gt (sub (Fin q) (Fin q)) (of_Z 0) = false).
  { intros q. unfold gt, sub, opp, add, of_Z. cbn [ToNumber]. apply lt_Fin_false.
    rewrite !Qred_correct. change (inject_Z 0) with 0%Q. lra. }
  destruct d as [|s|q|];
    [reflexivity | destruct s; reflexivity | apply Hfin | exact (Hfin 0%Q)].
Qed.

Lemma le_numbers a b : le a b = true -> is_nan a = false /\ is_nan b = false.
Proof. destruct a as [|[]| |], b as [|[]| |]; cbn; intros H; try discriminate; auto. Qed.

(** X8. The nearby route never returns a record whose rounded distance is
    NaN, and when the radius text is not a number it answers with success
    and an empty list. *)
Theorem nearby_unusable_numbers :
  forall (calculateDistance : number -> number -> number -> number -> number)
         (c : SupabaseClient) (lat lng rad : option string) (w : world),
    given lat = true -> given lng = true ->
    exists body,
      get_nearby (Some c) calculateDistance None lat lng rad w = Json body /\
      (forall x, x ∈ nearby_data body ->
                 is_nan (distance x) = false /\ is_nan (radius body) = false) /\
      (parseFloat (param_or "100" rad) = NaN -> nearby_data body = []) /\
      (forall eq,
          rounded (calculateDistance (parseFloat_opt lat) (parseFloat_opt lng)
                     (latitude eq) (longitude eq)) = NaN ->
          forall x, x ∈ nearby_data body -> quake x <> eq).
Proof.
  intros calc c lat lng rad w Hlat Hlng.
  eexists. split; [apply get_nearby_run; assumption|]. cbn [nearby_data radius].
  assert (Hle : forall x, x ∈ nearby_result calc lat lng rad w ->
                          le (distance x) (parseFloat (param_or "100" rad)) = true).
  { intros x (eq & _ & -> & H)%nearby_result_elem. exact H. }
  split; [|split].
  - intros x Hx. apply Hle in Hx. exact (le_numbers _ _ Hx).
  - intros Hnan. apply elem_of_nil_inv. intros x Hx. apply Hle in Hx.
    rewrite Hnan in Hx. apply le_numbers in Hx as [_ Hx]. discriminate.
  - intros eq Hnan x Hx <-.
    apply nearby_result_elem in Hx as (eq' & _ & -> & H).
    cbn [quake with_distance] in Hnan. rewrite Hnan in H. discriminate.
Qed.

Lemma nearby_unusable_numbers_witness :
  exists body,
    get_nearby (Some Client) NearbySample.far_100_04 None
      (Some "-6.2") (Some "106.8") (Some "abc") NearbySample.table = Json body /\
    nearby_data body = [].
Proof.
  destruct (nearby_unusable_numbers NearbySample.far_100_04 Client
              (Some "-6.2"%string) (Some "106.8"%string) (Some "abc"%string)
              NearbySample.table)
    as (body & H1 & _ & H2 & _); [reflexivity | reflexivity |].
  exists body. split; [exact H1|]. apply H2. reflexivity.
Defined.

(** X9. Among the records the nearby route returns at one same distance, the
    order is that of the rows it read: descending timestamp. *)
Theorem nearby_ties_by_recency :
  forall (calculateDistance : number -> number -> number -> number -> number)
         (c : SupabaseClient) (lat lng rad : option string) (w : world) (d : number),
    given lat = true -> given lng = true ->
    exists body,
      get_nearby (Some c) calculateDistance None lat lng rad w = Json body /\
      filter (fun x => distance x = d) (nearby_data body)
      = filter (fun x => distance x = d)
          (filter (fun x => le (distance x) (parseFloat (param_or "100" rad)))
             (with_distance calculateDistance (parseFloat_opt lat) (parseFloat_opt lng)
                <$> order_desc timestamp (select_all w))).
Proof.
  intros calc c lat lng rad w d Hlat Hlng.
  eexists. split; [apply get_nearby_run; assumption|]. cbn [nearby_data].
  unfold nearby_result, Array_sort. apply sort_by_filter.
  intros x y Hx Hy. rewrite Hx, Hy. apply difference_of_equals.
Qed.

Lemma nearby_ties_by_recency_witness :
  exists body,
    get_nearby (Some Client) NearbySample.far_100_04 None
      (Some "-6.2") (Some "106.8") None ListSample.table = Json body /\
    (region ∘ quake) <$> filter (fun x => distance x = Fin 100) (nearby_data body)
      = ["Padang"; "Medan"; "Yogyakarta"; "Jakarta"]%string.
Proof.
  destruct (nearby_ties_by_recency NearbySample.far_100_04 Client
              (Some "-6.2"%string) (Some "106.8"%string) None ListSample.table (Fin 100))
    as (body & H1 & H2); [reflexivity | reflexivity |].
  exists body. split; [exact H1|]. rewrite H2. vm_compute. reflexivity.
Defined.

(** ** The statistics route *)





(** ** Reading the most recent rows *)

Lemma limit_rows_nat {A} (n : nat) (l : list A) :
  limit_rows (of_Z (Z.of_nat n)) l = Some (take n l).
Proof.
  unfold limit_rows, of_Z.
  rewrite (is_integer_eq _ (Z.of_nat n)) by reflexivity. rewrite Qfloor_Z.
  destruct (Z.leb_spec 0 (Z.of_nat n)) as [_|?]; [|lia]. cbn [andb].
  rewrite Nat2Z.id. reflexivity.
Qed.

Lemma limit_rows_prefix {A} (count : number) (l k : list A) :
  limit_rows count l = Some k -> exists n, k = take n l.
Proof.
  unfold limit_rows. destruct count as [| |q|]; try discriminate.
  destruct (is_integer q && (0 <=? Qfloor q)); [|discriminate].
  intros [= <-]. eauto.
Qed.

(** X11. fetchEarthquakesFromSupabase never throws and never changes the
    table; its result is always a prefix of the rows in descending order
    of timestamp: the first [limit] of them (100 by default) when the
    read succeeds, and none without a client or when the read fails. *)
Theorem fetchEarthquakesFromSupabase_is_a_recent_prefix :
  forall (supabase : option SupabaseClient) (f : read_fault) (limit : option number)
         (w : world),
    let done := fetchEarthquakesFromSupabase supabase f limit w in
    let recent := order_desc timestamp (select_all w) in
    fst done = w /\
    (exists n, snd done = Normal (take n recent)) /\
    (forall c n, supabase = Some c -> f = ReadOk ->
                 default (of_Z 100) limit = of_Z (Z.of_nat n) ->
                 snd done = Normal (take n recent)) /\
    (supabase = None \/ f <> ReadOk -> snd done = Normal []) /\
    (forall l r, snd done = Normal l -> r ∈ l -> exists k, rows w !! k = Some r).
Proof.
  intros supabase f limit w done recent.
  assert (Hfst : fst done = w).
  { unfold done, fetchEarthquakesFromSupabase, try_catch, bind, select_recent, ret.
    destruct supabase; [|reflexivity]. destruct f; try reflexivity.
    destruct (limit_rows _ _); reflexivity. }
  assert (Hprefix : exists n, snd done = Normal (take n recent)).
  { unfold done, fetchEarthquakesFromSupabase, try_catch, bind, select_recent, ret.
    destruct supabase; [|exists 0%nat; reflexivity].
    destruct f; try (exists 0%nat; reflexivity).
    fold recent. destruct (limit_rows _ recent) as [k|] eqn:E;
      [|exists 0%nat; reflexivity].
    apply limit_rows_prefix in E as [n ->]. exists n. reflexivity. }
  split; [exact Hfst|]. split; [exact Hprefix|]. split; [|split].
  - intros c n -> -> Hn. unfold done, fetchEarthquakesFromSupabase, try_catch, bind,
      select_recent, ret. rewrite Hn. fold recent. rewrite limit_rows_nat. reflexivity.
  - intros [->|Hf]; [reflexivity|].
    unfold done, fetchEarthquakesFromSupabase, try_catch, bind, select_recent, ret.
    destruct supabase; [|reflexivity]. destruct f; try reflexivity. congruence.
  - intros l r Hl Hr. destruct Hprefix as [n Hn]. rewrite Hn in Hl.
    injection Hl as <-. apply subseteq_take in Hr.
    unfold recent in Hr. rewrite order_desc_perm in Hr.
    apply select_all_elem. exact Hr.
Qed.

Lemma fetchEarthquakesFromSupabase_is_a_recent_prefix_witness :
  exists l,
    snd (fetchEarthquakesFromSupabase (Some Client) ReadOk (Some (of_Z 2))
           ListSample.table) = Normal l /\
    region <$> l = ["Padang"; "Medan"]%string /\
    snd (fetchEarthquakesFromSupabase (Some Client) (ReadError "timeout") None
           ListSample.table) = Normal [].
Proof.
  destruct (fetchEarthquakesFromSupabase_is_a_recent_prefix (Some Client) ReadOk
              (Some (of_Z 2)) ListSample.table) as (_ & _ & H & _).
  destruct (fetchEarthquakesFromSupabase_is_a_recent_prefix (Some Client)
              (ReadError "timeout") None ListSample.table) as (_ & _ & _ & H' & _).
  eexists. split; [apply (H Client 2%nat); reflexivity|].
  split; [vm_compute; reflexivity|].
  apply H'. right. discriminate.
Defined.

(** ** What each feed sends *)

(** X12. The single-event feed sends one upsert request when [gempa] is one
    object, and the list feeds send one request per element, in order,
    when it is an array; a [gempa] of the other shape, or a missing one,
    is passed over without any request and without an error. *)
Theorem feed_sends_entries_of_its_shape :
  forall (c : SupabaseClient) (getTime : string -> number) (service : nat -> fault)
         (e : BMKGEarthquake) (l : list BMKGEarthquake) (w : world),
    let one := AxiosResponse (Infogempa (GempaOne e)) in
    let many := AxiosResponse (Infogempa (GempaMany l)) in
    let none := AxiosResponse (Infogempa GempaAbsent) in
    calls (fst (fetchLatestEarthquake (Some c) getTime one service w))
      = calls w ++ [[normalized getTime w e]] /\
    calls (fst (fetchM5Earthquakes (Some c) getTime many service w))
      = calls w ++ ((fun x => [normalized getTime w x]) <$> l) /\
    calls (fst (fetchFeltEarthquakes (Some c) getTime many service w))
      = calls w ++ ((fun x => [normalized getTime w x]) <$> l) /\
    fetchLatestEarthquake (Some c) getTime many service w = (w, Normal tt) /\
    fetchM5Earthquakes (Some c) getTime one service w = (w, Normal tt) /\
    fetchFeltEarthquakes (Some c) getTime one service w = (w, Normal tt) /\
    fetchLatestEarthquake (Some c) getTime none service w = (w, Normal tt) /\
    fetchM5Earthquakes (Some c) getTime none service w = (w, Normal tt) /\
    fetchFeltEarthquakes (Some c) getTime none service w = (w, Normal tt).
Proof.
  intros c getTime service e l w one many none.
  rewrite !fetchLatestEarthquake_run, !fetchM5Earthquakes_run, ?fetchFeltEarthquakes_run.
  cbn [one many none feed_entries entries_of].
  split; [|split; [|split; [|repeat split]]].
  - destruct (for_of_run (Some c) getTime service [e] 0 w) as (_ & _ & H & _). exact H.
  - destruct (for_of_run (Some c) getTime service l 0 w) as (_ & _ & H & _). exact H.
  - destruct (for_of_run (Some c) getTime service l 0 w) as (_ & _ & H & _). exact H.
Qed.

(** ** Without a client *)

(** X13. Without a client nothing is sent or written: the upserts return
    false and 0, the read returns no rows, the feed functions and every
    state of an ingestion cycle leave the world as it was, and the five
    routes answer 503. *)
Theorem unconfigured_client_is_inert :
  forall (getTime : string -> number)
         (calculateDistance : number -> number -> number -> number -> number)
         (w : world),
    (forall f r, upsertEarthquake None f r w = (w, Normal false)) /\
    (forall f l, upsertEarthquakes None f l w = (w, Normal (of_Z 0))) /\
    (forall f limit, fetchEarthquakesFromSupabase None f limit w = (w, Normal [])) /\
    (forall reply service,
        fetchLatestEarthquake None getTime reply service w = (w, Normal tt) /\
        fetchM5Earthquakes None getTime reply service w = (w, Normal tt) /\
        fetchFeltEarthquakes None getTime reply service w = (w, Normal tt)) /\
    (forall latest m5 felt s,
        rtc (cycle_step None getTime) (fetchAllEarthquakes latest m5 felt w) s ->
        store s = w) /\
    (forall db_error limit offset minMagnitude maxMagnitude,
        get_list None db_error limit offset minMagnitude maxMagnitude w
        = Failure 503 not_configured) /\
    (forall db_error, get_latest None db_error w = Failure 503 not_configured) /\
    (forall db_error lat lng rad,
        get_nearby None calculateDistance db_error lat lng rad w
        = Failure 503 not_configured) /\
    (forall db_error today, get_stats None db_error today w = Failure 503 not_configured) /\
    (forall db_error k, get_by_id None db_error k w = Failure 503 not_configured).
Proof.
  intros getTime calc w.
  assert (Hloop : forall service l i, for_of None getTime service i l w = (w, Normal tt)).
  { intros service l. induction l as [|e l IH]; intros i; [reflexivity|].
    rewrite for_of_cons, parseAndInsertEarthquake_run. apply IH. }
  split; [reflexivity|]. split; [intros f []; reflexivity|]. split; [reflexivity|].
  split.
  { intros reply service.
    rewrite fetchLatestEarthquake_run, fetchM5Earthquakes_run, fetchFeltEarthquakes_run.
    rewrite !Hloop. auto. }
  split.
  { intros latest m5 felt s Hrun.
    destruct (cycle_reachable_inv None getTime latest m5 felt w s Hrun)
      as (_ & _ & _ & _ & _ & _ & _ & H).
    apply H. reflexivity. }
  repeat split; reflexivity.
Qed.

Lemma unconfigured_client_is_inert_witness :
  store ExtraSample.idle_finish = ListSample.table.
Proof.
  destruct (unconfigured_client_is_inert Sample.getTime NearbySample.far_100_04
              ListSample.table) as (_ & _ & _ & _ & H & _).
  apply (H (AxiosResponse (Infogempa (GempaOne Sample.jakarta)))
           (AxiosResponse (Infogempa (GempaMany [Sample.medan])))
           (AxiosError "Network Error")).
  apply run_cycle_rtc.
Defined.

(** ** From the feed to the lookup route *)




(** ** Ingesting an entry again *)


(** X15. Ingesting the same entry again at a later time replaces its row by
    one that differs in [created_at] only, now the later time (as JSON
    carries it); the table keeps its size and every other row. *)
Theorem reingestion_refreshes_created_at :
  forall (c : SupabaseClient) (getTime : string -> number) (e : BMKGEarthquake)
         (w : world) (later : number),
    let first := fst (parseAndInsertEarthquake (Some c) getTime NoFault e w) in
    let second :=
      fst (parseAndInsertEarthquake (Some c) getTime NoFault e (at_time later first)) in
    let k := id (normalized getTime w e) in
    let r := JSON_record (earthquakeData getTime e (clock w)) in
    rows first !! k = Some r /\
    rows second !! k =
      Some {| id := id r; datetime := datetime r; timestamp := timestamp r;
              magnitude := magnitude r; depth := depth r; latitude := latitude r;
              longitude := longitude r; region := region r;
              tsunami_potential := tsunami_potential r;
              felt_status := felt_status r; shakemap_url := shakemap_url r;
              created_at := JSON_number later |} /\
    size (rows second) = size (rows first) /\
    (forall k', k' <> k -> rows second !! k' = rows first !! k').
Proof.
  intros c getTime e w later first second k r.
  unfold second, first. rewrite !parseAndInsertEarthquake_run. cbn [fst].
  change (rows (after_call NoFault [earthquakeData getTime e (clock w)] w))
    with (<[k := r]> (rows w)).
  change (rows (after_call NoFault _ (at_time later _)))
    with (<[k := JSON_record (earthquakeData getTime e later)]> (<[k := r]> (rows w))).
  rewrite insert_insert_eq, !lookup_insert_eq.
  split; [reflexivity|]. split; [reflexivity|].
  split.
  - destruct (rows w !! k) as [x|] eqn:E.
    + rewrite !map_size_insert_Some; eauto.
    + rewrite !map_size_insert_None; auto.
  - intros k' Hk'. rewrite !lookup_insert_ne by congruence. reflexivity.
Qed.

Lemma reingestion_refreshes_created_at_witness :
  let first := fst (parseAndInsertEarthquake (Some Client) Sample.getTime NoFault
                      Sample.jakarta ListSample.table) in
  let second := fst (parseAndInsertEarthquake (Some Client) Sample.getTime NoFault
                       Sample.jakarta (at_time (of_Z 1704500000000) first)) in
  rows second !! id (Sample.record_of Sample.medan)
  = rows first !! id (Sample.record_of Sample.medan).
Proof.
  intros first second.
  destruct (reingestion_refreshes_created_at Client Sample.getTime Sample.jakarta
              ListSample.table (of_Z 1704500000000)) as (_ & _ & _ & H).
  apply H. vm_compute. discriminate.
Defined.

(** ** A batch and the lookup route *)

Lemma upsert_rows_last t l r :
  r ∈ l -> (forall x y i j, l !! i = Some x -> l !! j = Some y -> id x = id y -> i = j) ->
  upsert_rows t l !! id r = Some (JSON_record r).
Proof.
  revert t. induction l as [|x l IH]; intros t Hr Hdistinct; [inversion Hr|].
  rewrite upsert_rows_cons.
  apply elem_of_cons in Hr as [->|Hr].
  - rewrite upsert_rows_frame; [apply lookup_insert_eq|].
    intros y [n Hn]%list_elem_of_lookup Hid.
    specialize (Hdistinct y x (S n) 0%nat Hn eq_refl Hid). discriminate.
  - apply IH; [exact Hr|].
    intros a b i j Hi Hj Hid.
    specialize (Hdistinct a b (S i) (S j) Hi Hj Hid). congruence.
Qed.

(** X16. After a batch upsert of records with pairwise different ids that
    returned their number, the by-id route returns each record of the
    batch for its id, as JSON carries it, and answers for every id
    outside the batch as before. *)
Theorem batch_then_lookup :
  forall (c : SupabaseClient) (f : fault) (l : list SupabaseEarthquake) (w : world),
    table_ok (rows w) ->
    NoDup (id <$> l) ->
    snd (upsertEarthquakes (Some c) f l w) = Normal (count_of l) ->
    let w' := fst (upsertEarthquakes (Some c) f l w) in
    table_ok (rows w') /\
    (forall r, r ∈ l -> get_by_id (Some c) None (id r) w' = Json (JSON_record r)) /\
    (forall k, k ∉ id <$> l ->
               get_by_id (Some c) None k w' = get_by_id (Some c) None k w).
Proof.
  intros c f l w Hok Hnodup Hcount. cbv zeta.
  rewrite upsertEarthquakes_run in *.
  destruct l as [|x l].
  { cbn [fst]. split; [exact Hok|]. split; [intros r Hr; inversion Hr | reflexivity]. }
  cbn [fst snd] in *.
  assert (Hf : accepted f = true).
  { destruct (accepted f); [reflexivity|]. injection Hcount. discriminate. }
  destruct f; try discriminate.
  assert (Hok' : table_ok (rows (after_call NoFault (x :: l) w)))
    by (apply after_call_ok, Hok).
  split; [exact Hok'|]. split.
  - intros r Hr. rewrite get_by_id_lookup by assumption.
    cbn [after_call rows written]. rewrite upsert_rows_last; [reflexivity|exact Hr|].
    intros a b i j Hi Hj Hid.
    apply (NoDup_lookup (id <$> (x :: l)) i j (id a)); [exact Hnodup| |];
      rewrite list_lookup_fmap; [rewrite Hi | rewrite Hj, Hid]; reflexivity.
  - intros k Hk. rewrite !get_by_id_lookup by assumption.
    cbn [after_call rows written]. rewrite upsert_rows_frame; [reflexivity|].
    intros r Hr <-. apply Hk. apply list_elem_of_fmap. eauto.
Qed.

Lemma batch_then_lookup_witness :
  let l := [Sample.record_of Sample.jakarta; Sample.record_of Sample.medan] in
  get_by_id (Some Client) None (id (Sample.record_of Sample.medan))
    (fst (upsertEarthquakes (Some Client) NoFault l Sample.empty_world))
  = Json (Sample.record_of Sample.medan).
Proof.
  intros l.
  destruct (batch_then_lookup Client NoFault l Sample.empty_world) as (_ & H & _).
  - apply table_ok_empty.
  - apply (bool_decide_unpack _). vm_compute. exact I.
  - reflexivity.
  - apply H. right. left.
Defined.
